(** * IXWebSocketServer: the per-connection handler and the ordered shutdown

    A shallow embedding of [src/ixwebsocket/IXWebSocketServer.cpp]
    (namespace [ix], class [WebSocketServer]), and the properties of
    [WebSocketServer::handleConnection] and [WebSocketServer::stop] that
    its specification states.

    The class sits between a generic accepting server ([SocketServer], its
    base class) and the WebSocket session engine ([WebSocket]).  Neither
    is defined in this file of the repository, so every call into them is
    an _event_ of a trace, and what they answer (the result of the
    handshake, the messages that arrive while [run()] blocks, what the
    other threads do to the client set meanwhile) comes from an
    environment [Env].  The code of the class itself is embedded statement
    by statement in a small state-and-completion monad: the state is the
    memory the handler touches, a completion is how a C++ statement ends
    (it falls through, it is a [return;], or an exception leaves it; the
    class has no [try]).

    Contents: the data, the monad, the collaborators, the embedded
    methods; observers of traces; the paths through [handleConnection]
    and the lemma [connection_path] that the code takes exactly these; the
    properties C1 to C10; further properties of the constructor, the
    setters, the destructor and the two readers of the client set. *)

From stdpp Require Import base option list gmap strings pretty sorting.

Open Scope string_scope.
Open Scope list_scope.

(** ** Data *)

(** A [std::shared_ptr<WebSocket>] is compared, ordered and stored in the
    client set by the address it holds. *)
Abbreviation Handle := nat (only parsing).

(** The accepted socket is only moved into [connectToSocket]. *)
Abbreviation Socket := nat (only parsing).

(** An incoming message ([WebSocketMessagePtr]); only its payload matters. *)
Abbreviation Message := string (only parsing).

(** An exception object in flight. *)
Inductive Exception : Set :=
| bad_function_call
| app_exception (what : string).

(** Modelled from the spec: [ConnectionInfo] is declared in a header
    that is not under [src/]; it is "per-connection metadata (remote
    address, etc.)" given by the accepting server. *)
Record ConnectionInfo : Set := mkConnectionInfo {
  remoteIp : string;
  remotePort : Z
}.

(** Modelled from the spec: [ConnectionState] is declared in a header
    that is not under [src/]; it "carries a stable connection identifier
    string and a [setTerminated()] sink". *)
Record ConnectionState : Set := mkConnectionState {
  getId : string;
  isTerminated : bool
}.

(** How a lambda takes a variable of the enclosing function: a copy of the
    value stored in the closure, or a reference to the object the function
    owns. *)
Inductive Captured (A : Type) : Type :=
| ByCopy (a : A)
| ByReference.
Arguments ByCopy {A} a.
Arguments ByReference {A}.

(** The closure built at lines 102-105:
    [[this, &ws = *webSocket.get(), connectionState, &ci = *connectionInfo.get()]]. *)
Record ClientMessageLambda : Type := mkLambda {
  lam_ws : Captured Handle;
  lam_connectionState : Captured string;
  lam_ci : Captured ConnectionInfo
}.

(** What can sit in a session's per-message callback slot: a handler that
    the application installed (it consumes a message and may throw), or the
    server's own closure. *)
Inductive OnMessageCallback : Type :=
| AppCallback (f : Message → option Exception)
| ServerLambda (c : ClientMessageLambda).

(** Modelled from the spec: the class [WebSocket] (the session engine)
    is not under [src/].  These are the settings of a session that the
    methods called by the server read or write
    ([setOnMessageCallback], [isOnMessageCallbackRegistered],
    [disableAutomaticReconnection], [enablePong], [disablePong]), and the
    permessage-deflate setting that the specification speaks of. *)
Record WebSocket : Type := mkWebSocket {
  onMessageCallback : option OnMessageCallback;
  automaticReconnection : bool;
  pongEnabled : bool;
  perMessageDeflateEnabled : bool
}.

(** Modelled from the spec: [WebSocketInitResult], the answer of
    [connectToSocket], is declared in a header that is not under [src/];
    lines 134 and 143-144 read these three members. *)
Record WebSocketInitResult : Set := mkInitResult {
  success : bool;
  http_status : Z;
  errorStr : string
}.

(** What the application does to the session inside its [OnConnection]
    hook, as far as the callback slot goes. *)
Inductive AppAction : Type :=
| LeavesCallback
| CallsSetOnMessageCallback (cb : option (Message → option Exception)).

(** The two application hooks ([std::function] objects holding
    application code).  The [OnConnection] hook receives the session, the
    connection state and the connection info (moved in); it answers with
    what it did, or throws.  The [OnClientMessage] hook receives the
    connection state, the connection info, the session and a message; it
    returns ([None]) or throws. *)
Definition OnConnectionCallback : Type :=
  Handle → string → ConnectionInfo → AppAction + Exception.

Definition OnClientMessageCallback : Type :=
  string → ConnectionInfo → Handle → Message → option Exception.

(** The arguments handed to the base class constructor. *)
Record SocketServer : Set := mkSocketServer {
  port : Z;
  host : string;
  backlog : Z;
  maxConnections : N;
  addressFamily : Z
}.

(** The members of [WebSocketServer]. *)
Record WebSocketServer : Type := mkWebSocketServer {
  base : SocketServer;
  _handshakeTimeoutSecs : Z;
  _enablePong : bool;
  _enablePerMessageDeflate : bool;
  _onConnectionCallback : option OnConnectionCallback;
  _onClientMessageCallback : option OnClientMessageCallback;
  _clients : gset nat
}.

Definition kDefaultHandShakeTimeoutSecs : Z := 3.
Definition kDefaultEnablePong : bool := true.

(** ** Constructor and setters (lines 23-77) *)

Definition WebSocketServer_new (port : Z) (host : string) (backlog : Z)
    (maxConnections : N) (handshakeTimeoutSecs : Z) (addressFamily : Z)
  : WebSocketServer :=
  {| base := mkSocketServer port host backlog maxConnections addressFamily;
     _handshakeTimeoutSecs := handshakeTimeoutSecs;
     _enablePong := kDefaultEnablePong;
     _enablePerMessageDeflate := true;
     _onConnectionCallback := None;
     _onClientMessageCallback := None;
     _clients := ∅ |}.

Definition set_enablePong (b : bool) (s : WebSocketServer) : WebSocketServer :=
  {| base := base s;
     _handshakeTimeoutSecs := _handshakeTimeoutSecs s;
     _enablePong := b;
     _enablePerMessageDeflate := _enablePerMessageDeflate s;
     _onConnectionCallback := _onConnectionCallback s;
     _onClientMessageCallback := _onClientMessageCallback s;
     _clients := _clients s |}.

Definition set_enablePerMessageDeflate (b : bool) (s : WebSocketServer)
  : WebSocketServer :=
  {| base := base s;
     _handshakeTimeoutSecs := _handshakeTimeoutSecs s;
     _enablePong := _enablePong s;
     _enablePerMessageDeflate := b;
     _onConnectionCallback := _onConnectionCallback s;
     _onClientMessageCallback := _onClientMessageCallback s;
     _clients := _clients s |}.

Definition set_clients (c : gset nat) (s : WebSocketServer) : WebSocketServer :=
  {| base := base s;
     _handshakeTimeoutSecs := _handshakeTimeoutSecs s;
     _enablePong := _enablePong s;
     _enablePerMessageDeflate := _enablePerMessageDeflate s;
     _onConnectionCallback := _onConnectionCallback s;
     _onClientMessageCallback := _onClientMessageCallback s;
     _clients := c |}.

Definition enablePong : WebSocketServer → WebSocketServer := set_enablePong true.
Definition disablePong : WebSocketServer → WebSocketServer := set_enablePong false.
Definition disablePerMessageDeflate : WebSocketServer → WebSocketServer :=
  set_enablePerMessageDeflate false.

Definition setOnConnectionCallback (callback : option OnConnectionCallback)
    (s : WebSocketServer) : WebSocketServer :=
  {| base := base s;
     _handshakeTimeoutSecs := _handshakeTimeoutSecs s;
     _enablePong := _enablePong s;
     _enablePerMessageDeflate := _enablePerMessageDeflate s;
     _onConnectionCallback := callback;
     _onClientMessageCallback := _onClientMessageCallback s;
     _clients := _clients s |}.

Definition setOnClientMessageCallback (callback : option OnClientMessageCallback)
    (s : WebSocketServer) : WebSocketServer :=
  {| base := base s;
     _handshakeTimeoutSecs := _handshakeTimeoutSecs s;
     _enablePong := _enablePong s;
     _enablePerMessageDeflate := _enablePerMessageDeflate s;
     _onConnectionCallback := _onConnectionCallback s;
     _onClientMessageCallback := callback;
     _clients := _clients s |}.

(** ** Memory, events and the trace *)

(** The memory one call of [handleConnection] (or of [stop]) works on: the
    server object behind [this], the session behind the local [webSocket],
    the connection state, the [std::unique_ptr<ConnectionInfo>] parameter
    ([None] once it is moved from or destroyed) and whether this thread
    holds [_clientsMutex]. *)
Record Mem : Type := mkMem {
  this : WebSocketServer;
  webSocket : WebSocket;
  connectionState : ConnectionState;
  connectionInfo : option ConnectionInfo;
  clientsMutex : bool
}.

(** Every call that leaves the class, and every access to the client set. *)
Inductive Event : Type :=
| EvSetThreadName (name : string)
| EvMakeShared (ws : Handle)
| EvOnConnection (ws : Handle) (id : string) (ci : ConnectionInfo)
| EvIsOnMessageCallbackRegistered (ws : Handle) (answer : bool)
| EvSetOnMessageCallback (ws : Handle) (cb : option OnMessageCallback)
| EvLogError (msg : string)
| EvSetTerminated (id : string)
| EvDisableAutomaticReconnection (ws : Handle)
| EvEnablePong (ws : Handle)
| EvDisablePong (ws : Handle)
| EvLock
| EvUnlock
| EvInsert (ws : Handle)
| EvErase (ws : Handle) (removed : nat)
| EvCopyClients (snapshot : gset nat)
| EvConnectToSocket (ws : Handle) (socket : Socket) (timeoutSecs : Z)
| EvConnectReturned (ws : Handle) (status : WebSocketInitResult)
| EvRun (ws : Handle)
| EvRunReturned (ws : Handle)
| EvAppCallback (ws : Handle) (msg : Message)
| EvOnClientMessage (id : string) (ci : ConnectionInfo) (ws : Handle) (msg : Message)
| EvDestroyConnectionInfo (ci : ConnectionInfo)
| EvStopAcceptingConnections
| EvClose (ws : Handle)
| EvSocketServerStop.

(** What the trace keeps of the memory at the moment an event executes:
    the handler in the session's callback slot, the [ConnectionInfo] the
    handler's pointer owns, and whether this thread holds the mutex. *)
Record Snapshot : Type := mkSnapshot {
  snap_callback : option OnMessageCallback;
  snap_connectionInfo : option ConnectionInfo;
  snap_clientsMutex : bool
}.

Definition snapshot (m : Mem) : Snapshot :=
  mkSnapshot (onMessageCallback (webSocket m)) (connectionInfo m) (clientsMutex m).

(** An observation: the event and the snapshot at the moment it executes. *)
Record Obs : Type := mkObs {
  event : Event;
  seen : Snapshot
}.

Definition events (t : list Obs) : list Event := event <$> t.

(** How a statement ends. [Undefined] is a use of a dangling reference. *)
Inductive Completion (A : Type) : Type :=
| Normal (a : A)
| Returned
| Thrown (e : Exception)
| Undefined.
Arguments Normal {A} a.
Arguments Returned {A}.
Arguments Thrown {A} e.
Arguments Undefined {A}.

(** The monad: memory and trace are threaded.  The trace is kept with the
    newest observation first; [trace] below gives it in program order. *)
Definition M (A : Type) : Type := Mem * list Obs → Completion A * (Mem * list Obs).

Definition ret {A} (a : A) : M A := λ s, (Normal a, s).

Definition bind {A B} (m : M A) (k : A → M B) : M B :=
  λ s, match m s with
       | (Normal a, s') => k a s'
       | (Returned, s') => (Returned, s')
       | (Thrown e, s') => (Thrown e, s')
       | (Undefined, s') => (Undefined, s')
       end.

Declare Scope cpp_scope.
Delimit Scope cpp_scope with cpp.
Notation "x <- m ; k" := (bind m (λ x, k))
  (at level 100, m at next level, k at level 200, right associativity) : cpp_scope.
Notation "m ;; k" := (bind m (λ _, k))
  (at level 100, k at level 200, right associativity) : cpp_scope.
Bind Scope cpp_scope with M.
Open Scope cpp_scope.

Definition gets {A} (f : Mem → A) : M A := λ s, (Normal (f s.1), s).
Definition modify (f : Mem → Mem) : M unit := λ s, (Normal tt, (f s.1, s.2)).
Definition emit (e : Event) : M unit :=
  λ s, (Normal tt, (s.1, mkObs e (snapshot s.1) :: s.2)).
Definition return_ {A} : M A := λ s, (Returned, s).
Definition throw {A} (e : Exception) : M A := λ s, (Thrown e, s).
Definition undefined {A} : M A := λ s, (Undefined, s).

Definition set_this (f : WebSocketServer → WebSocketServer) (m : Mem) : Mem :=
  mkMem (f (this m)) (webSocket m) (connectionState m) (connectionInfo m) (clientsMutex m).
Definition set_webSocket (f : WebSocket → WebSocket) (m : Mem) : Mem :=
  mkMem (this m) (f (webSocket m)) (connectionState m) (connectionInfo m) (clientsMutex m).
Definition set_connectionState (f : ConnectionState → ConnectionState) (m : Mem) : Mem :=
  mkMem (this m) (webSocket m) (f (connectionState m)) (connectionInfo m) (clientsMutex m).
Definition set_connectionInfo (c : option ConnectionInfo) (m : Mem) : Mem :=
  mkMem (this m) (webSocket m) (connectionState m) c (clientsMutex m).
Definition set_clientsMutex (b : bool) (m : Mem) : Mem :=
  mkMem (this m) (webSocket m) (connectionState m) (connectionInfo m) b.

(** ** The environment *)

(** What the collaborators outside this class answer during one call:
    the address [std::make_shared<WebSocket>()] returns and the default
    settings of a session just constructed, the result of the handshake (or the
    exception it ends with), the messages that arrive while [run()] blocks
    and how [run()] ends, and what the other threads do to [_clients]
    while this thread is inside a call that lets them run (given the event
    of that call). *)
Record Env : Type := mkEnv {
  env_make_shared : Handle;
  env_new_WebSocket : WebSocket;
  env_connectToSocket : WebSocketInitResult + Exception;
  env_incoming : list Message;
  env_run : option Exception;
  env_others : Event → gset nat → gset nat
}.

(** Other threads run: they may insert into and erase from [_clients]. *)
Definition yield (env : Env) (call : Event) : M unit :=
  modify (set_this (λ s, set_clients (env_others env call (_clients s)) s)).

(** ** Scopes *)

(** Run [cleanup] however [m] ends (a destructor at the end of a scope). *)
Definition finally {A} (m : M A) (cleanup : M unit) : M A :=
  λ s, match m s with
       | (Undefined, s') => (Undefined, s')
       | (c, s') => (c, (cleanup s').2)
       end.

(** [std::lock_guard<std::mutex> lock(_clientsMutex);] around [body]. *)
Definition lock_guard {A} (body : M A) : M A :=
  emit EvLock;;
  modify (set_clientsMutex true);;
  finally body (emit EvUnlock;; modify (set_clientsMutex false)).

(** A function body: [return;] ends the function, not the caller. *)
Definition function_body (m : M unit) : M unit :=
  λ s, match m s with
       | (Returned, s') => (Normal tt, s')
       | r => r
       end.

(** The destructor of the [std::unique_ptr<ConnectionInfo>] parameter. *)
Definition destroy_connectionInfo : M unit :=
  o <- gets connectionInfo;
  match o with
  | Some ci => emit (EvDestroyConnectionInfo ci);; modify (set_connectionInfo None)
  | None => ret tt
  end.

(** ** Calls that leave the class

    Modelled from the spec: the methods of [WebSocket], [ConnectionState]
    and [SocketServer], and [setThreadName] and [logError], are defined
    outside [src/].  Each is an event; the methods of the session do to
    the session's settings what their names say ("External interfaces",
    downstream). *)

Definition setThreadName (name : string) : M unit := emit (EvSetThreadName name).
Definition logError (msg : string) : M unit := emit (EvLogError msg).

Definition setTerminated : M unit :=
  id <- gets (getId ∘ connectionState);
  emit (EvSetTerminated id);;
  modify (set_connectionState (λ c, mkConnectionState (getId c) true)).

(** [std::make_shared<WebSocket>()]: a session just constructed has no
    per-message callback (line 90 asks for exactly that); its other
    settings are the engine's defaults. *)
Definition make_shared_WebSocket (env : Env) : M Handle :=
  emit (EvMakeShared (env_make_shared env));;
  modify (set_webSocket (λ _,
    mkWebSocket None (automaticReconnection (env_new_WebSocket env))
                (pongEnabled (env_new_WebSocket env))
                (perMessageDeflateEnabled (env_new_WebSocket env))));;
  ret (env_make_shared env).

Definition WebSocket_setOnMessageCallback (ws : Handle) (cb : option OnMessageCallback)
  : M unit :=
  emit (EvSetOnMessageCallback ws cb);;
  modify (set_webSocket (λ w,
    mkWebSocket cb (automaticReconnection w) (pongEnabled w) (perMessageDeflateEnabled w))).

Definition WebSocket_isOnMessageCallbackRegistered (ws : Handle) : M bool :=
  cb <- gets (onMessageCallback ∘ webSocket);
  emit (EvIsOnMessageCallbackRegistered ws (if cb is Some _ then true else false));;
  ret (if cb is Some _ then true else false).

Definition WebSocket_disableAutomaticReconnection (ws : Handle) : M unit :=
  emit (EvDisableAutomaticReconnection ws);;
  modify (set_webSocket (λ w,
    mkWebSocket (onMessageCallback w) false (pongEnabled w) (perMessageDeflateEnabled w))).

Definition WebSocket_enablePong (ws : Handle) : M unit :=
  emit (EvEnablePong ws);;
  modify (set_webSocket (λ w,
    mkWebSocket (onMessageCallback w) (automaticReconnection w) true
                (perMessageDeflateEnabled w))).

Definition WebSocket_disablePong (ws : Handle) : M unit :=
  emit (EvDisablePong ws);;
  modify (set_webSocket (λ w,
    mkWebSocket (onMessageCallback w) (automaticReconnection w) false
                (perMessageDeflateEnabled w))).

Definition WebSocket_connectToSocket (env : Env) (ws : Handle) (socket : Socket)
    (timeoutSecs : Z) : M WebSocketInitResult :=
  emit (EvConnectToSocket ws socket timeoutSecs);;
  yield env (EvConnectToSocket ws socket timeoutSecs);;
  match env_connectToSocket env with
  | inl status => emit (EvConnectReturned ws status);; ret status
  | inr e => throw e
  end.

Definition WebSocket_close (env : Env) (ws : Handle) : M unit :=
  emit (EvClose ws);;
  yield env (EvClose ws).

Definition stopAcceptingConnections : M unit := emit EvStopAcceptingConnections.

Definition SocketServer_stop (env : Env) : M unit :=
  emit EvSocketServerStop;;
  yield env EvSocketServerStop.

(** Line 88: [_onConnectionCallback(webSocket, connectionState,
    std::move(connectionInfo))].  The hook's parameter takes the
    [ConnectionInfo] over; the handler's pointer is null afterwards. *)
Definition call_onConnectionCallback (cb : OnConnectionCallback) (ws : Handle)
  : M unit :=
  id <- gets (getId ∘ connectionState);
  o <- gets connectionInfo;
  match o with
  | None => undefined
  | Some ci =>
      emit (EvOnConnection ws id ci);;
      modify (set_connectionInfo None);;
      match cb ws id ci with
      | inl LeavesCallback => ret tt
      | inl (CallsSetOnMessageCallback f) =>
          modify (set_webSocket (λ w,
            mkWebSocket (AppCallback <$> f) (automaticReconnection w) (pongEnabled w)
                        (perMessageDeflateEnabled w)))
      | inr e => throw e
      end
  end.

(** Reading a captured variable inside the lambda. *)
Definition captured_connectionState (c : Captured string) : M string :=
  match c with
  | ByCopy id => ret id
  | ByReference => gets (getId ∘ connectionState)
  end.

Definition captured_ci (c : Captured ConnectionInfo) : M ConnectionInfo :=
  match c with
  | ByCopy ci => ret ci
  | ByReference =>
      o <- gets connectionInfo;
      match o with
      | Some ci => ret ci
      | None => undefined
      end
  end.

Definition captured_ws (session : Handle) (c : Captured Handle) : M Handle :=
  match c with
  | ByCopy h => ret h
  | ByReference => ret session
  end.

(** Line 104, the body of the lambda:
    [_onClientMessageCallback(connectionState, ci, ws, msg)]. *)
Definition invoke_lambda (c : ClientMessageLambda) (session : Handle) (msg : Message)
  : M unit :=
  hook <- gets (_onClientMessageCallback ∘ this);
  match hook with
  | None => throw bad_function_call
  | Some f =>
      id <- captured_connectionState (lam_connectionState c);
      ci <- captured_ci (lam_ci c);
      ws <- captured_ws session (lam_ws c);
      emit (EvOnClientMessage id ci ws msg);;
      match f id ci ws msg with
      | Some e => throw e
      | None => ret tt
      end
  end.

(** Modelled from the spec: the session engine's [run()] is not under
    [src/].  It "blocks until peer close, local close, or I/O error" and is
    the place where incoming messages are processed and callbacks
    executed (comment at lines 136-137): each message goes to the handler
    in the session's callback slot, and an exception of the handler
    leaves [run()]. *)
Definition deliver (ws : Handle) (msg : Message) : M unit :=
  cb <- gets (onMessageCallback ∘ webSocket);
  match cb with
  | None => ret tt
  | Some (AppCallback f) =>
      emit (EvAppCallback ws msg);;
      match f msg with
      | Some e => throw e
      | None => ret tt
      end
  | Some (ServerLambda c) => invoke_lambda c ws msg
  end.

Fixpoint for_each {A} (l : list A) (body : A → M unit) : M unit :=
  match l with
  | [] => ret tt
  | x :: l' => body x;; for_each l' body
  end.

Definition WebSocket_run (env : Env) (ws : Handle) : M unit :=
  emit (EvRun ws);;
  yield env (EvRun ws);;
  for_each (env_incoming env) (deliver ws);;
  match env_run env with
  | Some e => throw e
  | None => emit (EvRunReturned ws)
  end.

(** ** The client set (lines 129-130, 152-153, 162-172) *)

(** [std::set::insert(key)]; [std::set::erase(key)], which answers the
    number of elements removed. *)
Definition set_insert (ws : Handle) (c : gset nat) : gset nat := {[ws]} ∪ c.
Definition set_erase (ws : Handle) (c : gset nat) : gset nat := c ∖ {[ws]}.
Definition erase_count (ws : Handle) (c : gset nat) : nat :=
  if decide (ws ∈ c) then 1 else 0.

Definition clients_insert (ws : Handle) : M unit :=
  emit (EvInsert ws);;
  modify (set_this (λ s, set_clients (set_insert ws (_clients s)) s)).

Definition clients_erase (ws : Handle) : M nat :=
  c <- gets (_clients ∘ this);
  emit (EvErase ws (erase_count ws c));;
  modify (set_this (λ s, set_clients (set_erase ws (_clients s)) s));;
  ret (erase_count ws c).

Definition getClients : M (gset nat) :=
  lock_guard (c <- gets (_clients ∘ this); emit (EvCopyClients c);; ret c).

Definition getConnectedClientsCount : M nat :=
  lock_guard (gets (size ∘ _clients ∘ this)).

(** A range-for over a [std::set] visits the elements in ascending order. *)
Definition in_order (c : gset nat) : list Handle := merge_sort Nat.le (elements c).

(** ** [WebSocketServer::stop] (lines 41-52) *)

Definition stop (env : Env) : M unit :=
  function_body (
    stopAcceptingConnections;;
    clients <- getClients;
    for_each (in_order clients) (λ client, WebSocket_close env client);;
    SocketServer_stop env).

(** ** [WebSocketServer::~WebSocketServer] (lines 36-39)

    The body of the destructor is the one call [stop();]. *)

Definition WebSocketServer_destructor (env : Env) : M unit :=
  function_body (stop env).

(** ** [WebSocketServer::handleConnection] (lines 79-160) *)

Definition handshake_error (status : WebSocketInitResult) : string :=
  "WebSocketServer::handleConnection() HTTP status: " +:+ pretty (http_status status)
  +:+ " error: " +:+ errorStr status.

(** Lines 133-159: the handshake, the message loop, the drain and the
    terminated flag, for a session that has just been added to the client
    set. *)
Definition serve (env : Env) (socket : Socket) (webSocket : Handle) : M unit :=
  timeout <- gets (_handshakeTimeoutSecs ∘ this);
  status <- WebSocket_connectToSocket env webSocket socket timeout;
  (if success status then WebSocket_run env webSocket
   else logError (handshake_error status));;
  WebSocket_setOnMessageCallback webSocket None;;
  lock_guard (
    removed <- clients_erase webSocket;
    if negb (Nat.eqb removed 1) then logError "Cannot delete client" else ret tt);;
  setTerminated.

(** Lines 83-131, and then [serve]. *)
Definition handleConnection_body (env : Env) (socket : Socket) : M unit :=
  id <- gets (getId ∘ connectionState);
  setThreadName ("WebSocketServer::" +:+ id);;
  webSocket <- make_shared_WebSocket env;
  onConnection <- gets (_onConnectionCallback ∘ this);
  onClientMessage <- gets (_onClientMessageCallback ∘ this);
  match onConnection with
  | Some cb =>
      call_onConnectionCallback cb webSocket;;
      registered <- WebSocket_isOnMessageCallbackRegistered webSocket;
      if negb registered then
        logError ("WebSocketServer Application developer error: Server callback improperly "
                  +:+ "registerered.");;
        logError "Missing call to setOnMessageCallback inside setOnConnectionCallback.";;
        setTerminated;;
        return_
      else ret tt
  | None =>
      match onClientMessage with
      | Some _ =>
          WebSocket_setOnMessageCallback webSocket
            (Some (ServerLambda
               {| lam_ws := ByReference;
                  lam_connectionState := ByCopy id;
                  lam_ci := ByReference |}))
      | None =>
          logError
            "WebSocketServer Application developer error: No server callback is registerered.";;
          logError "Missing call to setOnConnectionCallback or setOnClientMessageCallback.";;
          setTerminated;;
          return_
      end
  end;;
  WebSocket_disableAutomaticReconnection webSocket;;
  pong <- gets (_enablePong ∘ this);
  (if pong then WebSocket_enablePong webSocket else WebSocket_disablePong webSocket);;
  lock_guard (clients_insert webSocket);;
  serve env socket webSocket.

Definition handleConnection (env : Env) (socket : Socket) : M unit :=
  finally (function_body (handleConnection_body env socket)) destroy_connectionInfo.

(** The memory at the entry of [handleConnection]: the server, the
    arguments, no session yet, the mutex not held. *)
Definition entry (env : Env) (server : WebSocketServer) (id : string)
    (ci : ConnectionInfo) : Mem * list Obs :=
  (mkMem server (env_new_WebSocket env) (mkConnectionState id false) (Some ci) false, []).

(** One whole connection. *)
Definition connection (env : Env) (server : WebSocketServer) (socket : Socket)
    (id : string) (ci : ConnectionInfo) : Completion unit * (Mem * list Obs) :=
  handleConnection env socket (entry env server id ci).

Definition completion {A} (r : Completion A * (Mem * list Obs)) : Completion A := r.1.
Definition final {A} (r : Completion A * (Mem * list Obs)) : Mem := r.2.1.
Definition trace {A} (r : Completion A * (Mem * list Obs)) : list Obs := reverse r.2.2.

(** ** Observers of a trace *)

Definition is_insert (e : Event) : bool :=
  match e with EvInsert _ => true | _ => false end.
Definition is_erase (e : Event) : bool :=
  match e with EvErase _ _ => true | _ => false end.
Definition is_connectToSocket (e : Event) : bool :=
  match e with EvConnectToSocket _ _ _ => true | _ => false end.
Definition is_run (e : Event) : bool :=
  match e with EvRun _ => true | _ => false end.
Definition is_clear (e : Event) : bool :=
  match e with EvSetOnMessageCallback _ None => true | _ => false end.
Definition is_setTerminated (e : Event) : bool :=
  match e with EvSetTerminated _ => true | _ => false end.
Definition is_close (e : Event) : bool :=
  match e with EvClose _ => true | _ => false end.
Definition is_onClientMessage (e : Event) : bool :=
  match e with EvOnClientMessage _ _ _ _ => true | _ => false end.
Definition is_destroy (e : Event) : bool :=
  match e with EvDestroyConnectionInfo _ => true | _ => false end.

(** [run()] has returned, or the handshake has failed. *)
Definition is_session_over (e : Event) : bool :=
  match e with
  | EvRunReturned _ => true
  | EvConnectReturned _ status => negb (success status)
  | _ => false
  end.

(** Input or output on the session: the handshake, the message loop and
    what the message loop delivers. *)
Definition is_session_io (e : Event) : bool :=
  match e with
  | EvConnectToSocket _ _ _ | EvConnectReturned _ _ | EvRun _ | EvRunReturned _
  | EvAppCallback _ _ | EvOnClientMessage _ _ _ _ => true
  | _ => false
  end.

(** An event inside the message loop. *)
Definition is_delivery (e : Event) : bool :=
  match e with
  | EvAppCallback _ _ | EvOnClientMessage _ _ _ _ => true
  | _ => false
  end.

(** The session an event concerns, when it concerns one. *)
Definition session_of (e : Event) : option Handle :=
  match e with
  | EvMakeShared ws | EvOnConnection ws _ _ | EvIsOnMessageCallbackRegistered ws _
  | EvSetOnMessageCallback ws _ | EvDisableAutomaticReconnection ws
  | EvEnablePong ws | EvDisablePong ws | EvInsert ws | EvErase ws _
  | EvConnectToSocket ws _ _ | EvConnectReturned ws _ | EvRun ws | EvRunReturned ws
  | EvAppCallback ws _ | EvOnClientMessage _ _ ws _ | EvClose ws => Some ws
  | _ => None
  end.

(** The events of a trace that is kept newest first, in program order,
    in front of [acc]. *)
Fixpoint chronological (l : list Obs) (acc : list Event) : list Event :=
  match l with
  | [] => acc
  | o :: l' => chronological l' (event o :: acc)
  end.

(** The lines written to the error log, in order. *)
Fixpoint logged (l : list Event) : list string :=
  match l with
  | [] => []
  | EvLogError msg :: l' => msg :: logged l'
  | _ :: l' => logged l'
  end.

(** How many events satisfy [p]. *)
Fixpoint count (p : Event → bool) (l : list Event) : nat :=
  match l with
  | [] => 0
  | e :: l' => (if p e then 1 else 0) + count p l'
  end.

(** What follows the first event that satisfies [p]. *)
Fixpoint after (p : Event → bool) (l : list Event) : list Event :=
  match l with
  | [] => []
  | e :: l' => if p e then l' else after p l'
  end.

(** No [q] event comes before the first [p] event. *)
Fixpoint guarded (p q : Event → bool) (l : list Event) : bool :=
  match l with
  | [] => true
  | e :: l' => if q e then false else if p e then true else guarded p q l'
  end.

(** Every event that satisfies [Q] has an event that satisfies [P] strictly
    before it. *)
Definition precedes (P Q : Event → Prop) (l : list Event) : Prop :=
  ∀ j e, l !! j = Some e → Q e → ∃ i e', i < j ∧ l !! i = Some e' ∧ P e'.

(** The server as [n] calls of its option setters leave it. *)
Inductive Setter : Type :=
| CallEnablePong
| CallDisablePong
| CallDisablePerMessageDeflate
| CallSetOnConnectionCallback (callback : option OnConnectionCallback)
| CallSetOnClientMessageCallback (callback : option OnClientMessageCallback).

Definition call_setter (s : WebSocketServer) (c : Setter) : WebSocketServer :=
  match c with
  | CallEnablePong => enablePong s
  | CallDisablePong => disablePong s
  | CallDisablePerMessageDeflate => disablePerMessageDeflate s
  | CallSetOnConnectionCallback cb => setOnConnectionCallback cb s
  | CallSetOnClientMessageCallback cb => setOnClientMessageCallback cb s
  end.

Definition call_setters (s : WebSocketServer) (l : list Setter) : WebSocketServer :=
  foldl call_setter s l.

(** What one delivery inside the message loop looks like, for the session
    [h] in memory [m]: the memory is untouched, and the event is a call of
    the handler in the callback slot, with the captured variables read as
    the closure took them. *)
Definition delivered (m : Mem) (h : Handle) (o : Obs) : Prop :=
  seen o = snapshot m ∧
  match event o with
  | EvAppCallback ws _ =>
      ws = h ∧ ∃ f, onMessageCallback (webSocket m) = Some (AppCallback f)
  | EvOnClientMessage id ci ws _ =>
      ∃ c, onMessageCallback (webSocket m) = Some (ServerLambda c) ∧
           is_Some (_onClientMessageCallback (this m)) ∧
           (lam_connectionState c = ByCopy id ∨
            lam_connectionState c = ByReference ∧ id = getId (connectionState m)) ∧
           (lam_ci c = ByCopy ci ∨
            lam_ci c = ByReference ∧ connectionInfo m = Some ci) ∧
           (lam_ws c = ByCopy ws ∨ lam_ws c = ByReference ∧ ws = h)
  | _ => False
  end.

(** ** The paths through [handleConnection]

    The handler is a straight line with two early [return;]s and three
    calls that may throw.  A [Path] names the way one call went; the
    functions below give, for each path, the calls the handler made, in
    order.  [connection_path] proves that the embedded code and these
    agree. *)

(** How an enrolled connection got its per-message handler: the
    [OnConnection] hook registered [f] (lines 86-98), or the server
    registered its own closure around the [OnClientMessage] hook (lines
    99-106). *)
Inductive Dispatch : Type :=
| ViaOnConnection (f : Message → option Exception)
| ViaOnClientMessage.

(** What became of the session after it was enrolled (lines 133-146). *)
Inductive Served : Type :=
| HandshakeThrew (e : Exception)
| HandshakeFailed (status : WebSocketInitResult)
| RunThrew (status : WebSocketInitResult) (deliveries : list Obs) (e : Exception)
| RunReturned (status : WebSocketInitResult) (deliveries : list Obs).

Inductive Path : Type :=
| NoCallback
| CallbackThrew (e : Exception)
| CallbackForgot
| Enrolled (d : Dispatch) (s : Served).

(** The closure of lines 102-105 for the connection [id]. *)
Definition client_message_lambda (id : string) : OnMessageCallback :=
  ServerLambda {| lam_ws := ByReference;
                  lam_connectionState := ByCopy id;
                  lam_ci := ByReference |}.

Definition callback_of (id : string) (d : Dispatch) : OnMessageCallback :=
  match d with
  | ViaOnConnection f => AppCallback f
  | ViaOnClientMessage => client_message_lambda id
  end.

(** The calls of [serve] on the session [env_make_shared env], when the
    handshake timeout is [timeout] and the client set holds [enrolled] on
    entry. *)
Section Served.
Variables (env : Env) (socket : Socket) (id : string)
          (timeout : Z) (enrolled : gset nat).

Local Abbreviation h := (env_make_shared env).

(** The client set as the other threads leave it while this one is in
    the handshake, and then in the message loop. *)
Definition clients_at_handshake : gset nat :=
  env_others env (EvConnectToSocket h socket timeout) enrolled.

Definition clients_at_run : gset nat :=
  env_others env (EvRun h) clients_at_handshake.

Definition handshake_events : list Event := [EvConnectToSocket h socket timeout].

Definition drain_events (c : gset nat) : list Event :=
  [EvSetOnMessageCallback h None; EvLock; EvErase h (erase_count h c)] ++
  (if Nat.eqb (erase_count h c) 1 then [] else [EvLogError "Cannot delete client"]) ++
  [EvUnlock; EvSetTerminated id].

Definition served_events (s : Served) : list Event :=
  match s with
  | HandshakeThrew _ => handshake_events
  | HandshakeFailed status =>
      handshake_events ++
      [EvConnectReturned h status; EvLogError (handshake_error status)] ++
      drain_events clients_at_handshake
  | RunThrew status deliveries _ =>
      handshake_events ++ [EvConnectReturned h status; EvRun h] ++ events deliveries
  | RunReturned status deliveries =>
      handshake_events ++ [EvConnectReturned h status; EvRun h] ++ events deliveries ++
      [EvRunReturned h] ++ drain_events clients_at_run
  end.

Definition served_completion (s : Served) : Completion unit :=
  match s with
  | HandshakeThrew e | RunThrew _ _ e => Thrown e
  | _ => Normal tt
  end.

(** [_clients] when [serve] is left. *)
Definition served_clients (s : Served) : gset nat :=
  match s with
  | HandshakeThrew _ => clients_at_handshake
  | HandshakeFailed _ => set_erase h clients_at_handshake
  | RunThrew _ _ _ => clients_at_run
  | RunReturned _ _ => set_erase h clients_at_run
  end.

(** Whether [serve] got as far as the drain. *)
Definition drained (s : Served) : bool :=
  match s with
  | HandshakeFailed _ | RunReturned _ _ => true
  | _ => false
  end.
End Served.

(** What holds of the memory at the moment of each event of [serve], when
    [serve] starts in the memory [m]. *)
Definition served_snapshot_ok (m : Mem) (o : Obs) : Prop :=
  (is_insert (event o) || is_erase (event o) = true →
   snap_clientsMutex (seen o) = true) ∧
  (is_session_io (event o) = true → snap_clientsMutex (seen o) = false) ∧
  (is_erase (event o) = true → snap_callback (seen o) = None) ∧
  (snap_callback (seen o) = onMessageCallback (webSocket m) ∨
   snap_callback (seen o) = None) ∧
  snap_connectionInfo (seen o) = connectionInfo m.

Section Paths.
Variables (env : Env) (server : WebSocketServer) (socket : Socket)
          (id : string) (ci : ConnectionInfo).

Local Abbreviation h := (env_make_shared env).
Local Abbreviation timeout := (_handshakeTimeoutSecs server).
Local Abbreviation enrolled := (set_insert h (_clients server)).

Definition named_events : list Event :=
  [EvSetThreadName ("WebSocketServer::" +:+ id); EvMakeShared h].

Definition developer_error_events (d : Dispatch) : list Event :=
  match d with
  | ViaOnConnection _ =>
      [EvLogError ("WebSocketServer Application developer error: Server callback improperly "
                   +:+ "registerered.");
       EvLogError "Missing call to setOnMessageCallback inside setOnConnectionCallback.";
       EvSetTerminated id]
  | ViaOnClientMessage =>
      [EvLogError
         "WebSocketServer Application developer error: No server callback is registerered.";
       EvLogError "Missing call to setOnConnectionCallback or setOnClientMessageCallback.";
       EvSetTerminated id]
  end.

Definition dispatch_events (d : Dispatch) : list Event :=
  match d with
  | ViaOnConnection _ =>
      [EvOnConnection h id ci; EvIsOnMessageCallbackRegistered h true]
  | ViaOnClientMessage =>
      [EvSetOnMessageCallback h (Some (client_message_lambda id))]
  end.

Definition configure_events : list Event :=
  [EvDisableAutomaticReconnection h;
   if _enablePong server then EvEnablePong h else EvDisablePong h].

Definition enroll_events : list Event := [EvLock; EvInsert h; EvUnlock].

(** The parameter's destructor finds the [ConnectionInfo] still there
    unless it was moved into the [OnConnection] hook. *)
Definition epilogue_events (d : Dispatch) : list Event :=
  match d with
  | ViaOnConnection _ => []
  | ViaOnClientMessage => [EvDestroyConnectionInfo ci]
  end.

Definition path_events (p : Path) : list Event :=
  match p with
  | NoCallback =>
      named_events ++ developer_error_events ViaOnClientMessage ++
      epilogue_events ViaOnClientMessage
  | CallbackThrew _ => named_events ++ [EvOnConnection h id ci]
  | CallbackForgot =>
      named_events ++ [EvOnConnection h id ci; EvIsOnMessageCallbackRegistered h false] ++
      developer_error_events (ViaOnConnection (λ _, None))
  | Enrolled d s =>
      named_events ++ dispatch_events d ++ configure_events ++ enroll_events ++
      served_events env socket id timeout enrolled s ++ epilogue_events d
  end.

Definition path_completion (p : Path) : Completion unit :=
  match p with
  | CallbackThrew e => Thrown e
  | Enrolled _ s => served_completion s
  | _ => Normal tt
  end.

(** [_clients] when the handler is left. *)
Definition path_clients (p : Path) : gset nat :=
  match p with
  | Enrolled _ s => served_clients env socket timeout enrolled s
  | _ => _clients server
  end.

(** The session when the handler is left. *)
Definition path_webSocket (p : Path) : WebSocket :=
  match p with
  | Enrolled d s =>
      {| onMessageCallback :=
           if drained s then None else Some (callback_of id d);
         automaticReconnection := false;
         pongEnabled := _enablePong server;
         perMessageDeflateEnabled := perMessageDeflateEnabled (env_new_WebSocket env) |}
  | _ =>
      {| onMessageCallback := None;
         automaticReconnection := automaticReconnection (env_new_WebSocket env);
         pongEnabled := pongEnabled (env_new_WebSocket env);
         perMessageDeflateEnabled := perMessageDeflateEnabled (env_new_WebSocket env) |}
  end.

(** One delivery of the message loop on an enrolled session. *)
Definition delivery_of (d : Dispatch) (o : Obs) : Prop :=
  seen o = {| snap_callback := Some (callback_of id d);
              snap_connectionInfo := if d is ViaOnClientMessage then Some ci else None;
              snap_clientsMutex := false |} ∧
  ∃ msg, event o = match d with
                   | ViaOnConnection _ => EvAppCallback h msg
                   | ViaOnClientMessage => EvOnClientMessage id ci h msg
                   end.

(** When the inputs send the handler down a path. *)
Definition dispatched (d : Dispatch) : Prop :=
  match d with
  | ViaOnConnection f =>
      ∃ cb, _onConnectionCallback server = Some cb ∧
            cb h id ci = inl (CallsSetOnMessageCallback (Some f))
  | ViaOnClientMessage =>
      _onConnectionCallback server = None ∧ is_Some (_onClientMessageCallback server)
  end.

Definition served (d : Dispatch) (s : Served) : Prop :=
  match s with
  | HandshakeThrew e => env_connectToSocket env = inr e
  | HandshakeFailed status =>
      env_connectToSocket env = inl status ∧ success status = false
  | RunThrew status deliveries _ | RunReturned status deliveries =>
      env_connectToSocket env = inl status ∧ success status = true ∧
      Forall (delivery_of d) deliveries ∧
      (if s is RunReturned _ _ then env_run env = None else True)
  end.

Definition takes (p : Path) : Prop :=
  match p with
  | NoCallback =>
      _onConnectionCallback server = None ∧ _onClientMessageCallback server = None
  | CallbackThrew e =>
      ∃ cb, _onConnectionCallback server = Some cb ∧ cb h id ci = inr e
  | CallbackForgot =>
      ∃ cb, _onConnectionCallback server = Some cb ∧
            (cb h id ci = inl LeavesCallback ∨
             cb h id ci = inl (CallsSetOnMessageCallback None))
  | Enrolled d s => dispatched d ∧ served d s
  end.

(** What holds of the memory at the moment of each event: the client
    set is touched with the mutex held and the session is used without
    it; the callback slot is empty when the erase executes; and while
    the server's closure sits in the slot, the handler still owns the
    [ConnectionInfo] the closure refers to. *)
Definition snapshot_ok (o : Obs) : Prop :=
  (is_insert (event o) || is_erase (event o) = true →
   snap_clientsMutex (seen o) = true) ∧
  (is_session_io (event o) = true → snap_clientsMutex (seen o) = false) ∧
  (is_erase (event o) = true → snap_callback (seen o) = None) ∧
  (∀ c, snap_callback (seen o) = Some (ServerLambda c) →
        snap_connectionInfo (seen o) = Some ci).
End Paths.

(** ** How an enrolled connection ends

    The exception, if any, that ends the message loop: the first one a
    per-message handler throws on the messages that arrive, or else the
    one [run()] itself ends with.  [handler_of] is what the handler in
    the callback slot answers to a message: the handler the
    [OnConnection] hook registered, or (lines 102-105) the
    [OnClientMessage] hook called with the connection's id, its
    [ConnectionInfo] and its session. *)
Fixpoint first_exception (answer : Message → option Exception) (msgs : list Message)
  : option Exception :=
  match msgs with
  | [] => None
  | msg :: msgs' =>
      match answer msg with
      | Some e => Some e
      | None => first_exception answer msgs'
      end
  end.

Definition handler_of (server : WebSocketServer) (id : string) (ci : ConnectionInfo)
    (h : Handle) (d : Dispatch) : Message → option Exception :=
  match d with
  | ViaOnConnection f => f
  | ViaOnClientMessage =>
      λ msg, match _onClientMessageCallback server with
             | Some hook => hook id ci h msg
             | None => Some bad_function_call
             end
  end.

Definition run_exception (env : Env) (answer : Message → option Exception)
  : option Exception :=
  match first_exception answer (env_incoming env) with
  | Some e => Some e
  | None => env_run env
  end.

Definition completion_of (o : option Exception) : Completion unit :=
  match o with
  | Some e => Thrown e
  | None => Normal ()
  end.

(** How a connection that got its handler by [d] ends, read off the
    inputs: with the exception of the handshake, normally after a failed
    handshake, and otherwise as the message loop ends. *)
Definition expected_completion (env : Env) (server : WebSocketServer) (id : string)
    (ci : ConnectionInfo) (d : Dispatch) : Completion unit :=
  match env_connectToSocket env with
  | inr e => Thrown e
  | inl status =>
      if success status
      then completion_of (run_exception env (handler_of server id ci (env_make_shared env) d))
      else Normal ()
  end.

(** More observers: projections of single events. *)
Definition is_unregistered (e : Event) : bool :=
  if e is EvIsOnMessageCallbackRegistered _ false then true else false.
Definition is_onConnection (e : Event) : bool :=
  if e is EvOnConnection _ _ _ then true else false.
Definition is_register_lambda (e : Event) : bool :=
  if e is EvSetOnMessageCallback _ (Some (ServerLambda _)) then true else false.
Definition is_log (msg : string) (e : Event) : bool :=
  if e is EvLogError m then String.eqb m msg else false.

Definition handshake_status (e : Event) : option WebSocketInitResult :=
  if e is EvConnectReturned _ status then Some status else None.
Definition erased (e : Event) : option nat :=
  if e is EvErase _ n then Some n else None.
Definition handshake_call (e : Event) : option (Handle * Socket * Z) :=
  if e is EvConnectToSocket ws socket timeoutSecs then Some (ws, socket, timeoutSecs)
  else None.
Definition hook_call (e : Event)
  : option (string * ConnectionInfo * Handle * Message) :=
  if e is EvOnClientMessage id ci ws msg then Some (id, ci, ws, msg) else None.
Definition registered_lambda (e : Event) : option ClientMessageLambda :=
  if e is EvSetOnMessageCallback _ (Some (ServerLambda c)) then Some c else None.

(** Observers for the mutex, the configuration of the session and the
    ownership of the [ConnectionInfo]. *)
Definition is_lock (e : Event) : bool := if e is EvLock then true else false.
Definition is_unlock (e : Event) : bool := if e is EvUnlock then true else false.
Definition is_makeShared (e : Event) : bool := if e is EvMakeShared _ then true else false.
Definition is_disableAutomaticReconnection (e : Event) : bool :=
  if e is EvDisableAutomaticReconnection _ then true else false.
Definition is_pong (e : Event) : bool :=
  match e with EvEnablePong _ | EvDisablePong _ => true | _ => false end.
Definition is_handshake_success (e : Event) : bool :=
  if e is EvConnectReturned _ status then success status else false.

(** A call into application code. *)
Definition is_hook (e : Event) : bool :=
  match e with
  | EvOnConnection _ _ _ | EvAppCallback _ _ | EvOnClientMessage _ _ _ _ => true
  | _ => false
  end.

Definition pong_call (e : Event) : option bool :=
  match e with
  | EvEnablePong _ => Some true
  | EvDisablePong _ => Some false
  | _ => None
  end.
Definition destroyed (e : Event) : option ConnectionInfo :=
  if e is EvDestroyConnectionInfo ci then Some ci else None.

(** [close()] on the session [ws]. *)
Definition closes (ws : Handle) (e : Event) : bool :=
  if e is EvClose ws' then Nat.eqb ws' ws else false.

(** The events that execute inside a [std::lock_guard] scope: the
    accesses to [_clients], the log line of a failed erase (line 155) and
    the release at the end of the scope. *)
Definition holds_mutex (e : Event) : bool :=
  match e with
  | EvInsert _ | EvErase _ _ | EvCopyClients _ | EvUnlock => true
  | EvLogError msg => String.eqb msg "Cannot delete client"
  | _ => false
  end.

(** The mutex is held exactly at the events of [holds_mutex]; inside
    [serve] there is no insert; and a session is inserted with a handler
    in its callback slot. *)
Definition served_discipline (o : Obs) : Prop :=
  snap_clientsMutex (seen o) = holds_mutex (event o) ∧ is_insert (event o) = false.

Definition discipline (o : Obs) : Prop :=
  snap_clientsMutex (seen o) = holds_mutex (event o) ∧
  (is_insert (event o) = true → is_Some (snap_callback (seen o))).

(** What a call of a setter writes, member by member. *)
Definition pong_setting (c : Setter) : option bool :=
  match c with
  | CallEnablePong => Some true
  | CallDisablePong => Some false
  | _ => None
  end.
Definition onConnection_setting (c : Setter) : option (option OnConnectionCallback) :=
  if c is CallSetOnConnectionCallback cb then Some cb else None.
Definition onClientMessage_setting (c : Setter)
  : option (option OnClientMessageCallback) :=
  if c is CallSetOnClientMessageCallback cb then Some cb else None.
Definition is_disablePerMessageDeflate (c : Setter) : bool :=
  if c is CallDisablePerMessageDeflate then true else false.

(** The calls of [stop()] when [getClients()] answers [c], and the client
    set as the other threads leave it while [stop()] closes the sessions
    of [c] and stops the base class. *)
Definition stop_events (c : gset nat) : list Event :=
  [EvStopAcceptingConnections; EvLock; EvCopyClients c; EvUnlock] ++
  (EvClose <$> in_order c) ++ [EvSocketServerStop].

Definition clients_after_stop (env : Env) (c : gset nat) : gset nat :=
  env_others env EvSocketServerStop
    (foldl (λ live ws, env_others env (EvClose ws) live) c (in_order c)).

(** The server with other arguments for the base class and another
    permessage-deflate flag; and a computation that behaves the same on
    such a server: the same completion, the same observations, and a
    memory that differs in these two members only. *)
Definition set_base_and_deflate (b : SocketServer) (deflate : bool) (s : WebSocketServer)
  : WebSocketServer :=
  {| base := b;
     _handshakeTimeoutSecs := _handshakeTimeoutSecs s;
     _enablePong := _enablePong s;
     _enablePerMessageDeflate := deflate;
     _onConnectionCallback := _onConnectionCallback s;
     _onClientMessageCallback := _onClientMessageCallback s;
     _clients := _clients s |}.

Definition unread (b : SocketServer) (deflate : bool) {A} (x : M A) : Prop :=
  ∀ m t, x (set_this (set_base_and_deflate b deflate) m, t) =
         ((x (m, t)).1,
          (set_this (set_base_and_deflate b deflate) (x (m, t)).2.1, (x (m, t)).2.2)).

(** ** Concrete inputs *)

Definition ci0 : ConnectionInfo := mkConnectionInfo "10.0.0.7" 51234.

(** A session as the engine constructs it: reconnection, pong and
    permessage-deflate on. *)
Definition fresh0 : WebSocket := mkWebSocket None true true true.

(** No other thread touches the client set. *)
Definition alone : Event → gset nat → gset nat := λ _ c, c.

(** Another thread erases the session 7 while this one is in the
    handshake. *)
Definition meddling : Event → gset nat → gset nat :=
  λ e c, if e is EvConnectToSocket _ _ _ then set_erase 7 c else c.

Definition handshake_ok : WebSocketInitResult := mkInitResult true 101 "".
Definition handshake_timeout : WebSocketInitResult :=
  mkInitResult false 400 "Error reading HTTP request line".

(** The handshake succeeds, the peer sends "a", "b", "c" and closes. *)
Definition env_happy : Env :=
  mkEnv 7 fresh0 (inl handshake_ok) ["a"; "b"; "c"] None alone.

(** The handshake fails. *)
Definition env_failed : Env :=
  mkEnv 7 fresh0 (inl handshake_timeout) [] None alone.

(** The handshake fails and the session is gone from the set by then. *)
Definition env_meddled : Env :=
  mkEnv 7 fresh0 (inl handshake_timeout) [] None meddling.

Definition server0 : WebSocketServer := WebSocketServer_new 8008 "127.0.0.1" 5 32 3 2.

(** An [OnClientMessage] hook that returns. *)
Definition hook_echo : OnClientMessageCallback := λ _ _ _ _, None.

(** An [OnConnection] hook that registers a handler, one that forgets
    to, and one that throws. *)
Definition hook_registers : OnConnectionCallback :=
  λ _ _ _, inl (CallsSetOnMessageCallback (Some (λ _, None))).
Definition hook_forgets : OnConnectionCallback := λ _ _ _, inl LeavesCallback.
Definition hook_throws : OnConnectionCallback :=
  λ _ _ _, inr (app_exception "boom").

Definition server_onClientMessage : WebSocketServer :=
  setOnClientMessageCallback (Some hook_echo) server0.
Definition server_onConnection : WebSocketServer :=
  setOnConnectionCallback (Some hook_registers) server0.
Definition server_both : WebSocketServer :=
  setOnConnectionCallback (Some hook_registers) server_onClientMessage.
Definition server_forgets : WebSocketServer :=
  setOnConnectionCallback (Some hook_forgets) server0.
Definition server_throws : WebSocketServer :=
  setOnConnectionCallback (Some hook_throws) server0.
Definition server_no_deflate : WebSocketServer :=
  disablePerMessageDeflate server_onClientMessage.

(** For [stop]: three live clients; each worker erases its session as
    soon as the session is closed. *)
Definition server_three : WebSocketServer := set_clients {[3; 1; 2]} server_onClientMessage.
Definition draining : Event → gset nat → gset nat :=
  λ e c, if e is EvClose ws then set_erase ws c else c.
Definition env_draining : Env := mkEnv 7 fresh0 (inl handshake_ok) [] None draining.

(** The handshake succeeds, one message arrives, and [run()] ends with an
    exception. *)
Definition env_run_throws : Env :=
  mkEnv 7 fresh0 (inl handshake_ok) ["a"] (Some (app_exception "reset")) alone.

(** The handshake ends with an exception. *)
Definition env_handshake_throws : Env :=
  mkEnv 7 fresh0 (inr (app_exception "io")) [] None alone.

(** An [OnClientMessage] hook that throws on the message "b". *)
Definition hook_rejects : OnClientMessageCallback :=
  λ _ _ _ msg, if String.eqb msg "b" then Some (app_exception "bad") else None.
Definition server_rejects : WebSocketServer :=
  setOnClientMessageCallback (Some hook_rejects) server0.

(** A worker erases the session 2 while this thread is on its way into
    [stop()]. *)
Definition leaving : Event → gset nat → gset nat :=
  λ e c, if e is EvStopAcceptingConnections then set_erase 2 c else c.
Definition env_leaving : Env := mkEnv 7 fresh0 (inl handshake_ok) [] None leaving.

(** The memory of a thread that is not handling a connection. *)
Definition at_rest (server : WebSocketServer) : Mem * list Obs :=
  (mkMem server fresh0 (mkConnectionState "" false) None false, []).
Definition is_runReturned (e : Event) : bool :=
  if e is EvRunReturned _ then true else false.
Definition is_connectReturned (e : Event) : bool :=
  if e is EvConnectReturned _ _ then true else false.
Definition is_copy (e : Event) : bool :=
  if e is EvCopyClients _ then true else false.

(** * Lemmas *)

Section Observers.
Variables p q : Event → bool.

Lemma count_app l1 l2 : count p (l1 ++ l2) = count p l1 + count p l2.
Proof. induction l1 as [|e l1 IH]; simpl; [done | rewrite IH; lia]. Qed.

Lemma count_none l : Forall (λ e, p e = false) l → count p l = 0.
Proof. induction 1 as [|e l He _ IH]; simpl; [done | by rewrite He, IH]. Qed.

Lemma after_skip l1 l2 :
  Forall (λ e, p e = false) l1 → after p (l1 ++ l2) = after p l2.
Proof. induction 1 as [|e l He _ IH]; simpl; [done | by rewrite He]. Qed.

Lemma guarded_skip l1 l2 :
  Forall (λ e, p e = false ∧ q e = false) l1 →
  guarded p q (l1 ++ l2) = guarded p q l2.
Proof.
  induction 1 as [|e l [Hp Hq] _ IH]; simpl; [done | by rewrite Hp, Hq].
Qed.

(** Once a [p] event has been seen, every later [q] event has one before
    it; [guarded] checks the part up to the first [p]. *)
Lemma guarded_precedes l :
  guarded p q l = true → precedes (λ e, p e = true) (λ e, q e = true) l.
Proof.
  induction l as [|e l IH]; intros Hg j x Hj Hq; [done |].
  simpl in Hg. destruct (q e) eqn:Eq; [done |].
  destruct j as [|j]; simpl in Hj; [congruence |].
  destruct (p e) eqn:Ep.
  - exists 0, e. split; [lia | done].
  - destruct (IH Hg j x Hj Hq) as (i & e' & Hi & Hl & Hp).
    exists (S i), e'. split; [lia | done].
Qed.
End Observers.

Lemma logged_app l1 l2 : logged (l1 ++ l2) = logged l1 ++ logged l2.
Proof.
  induction l1 as [|e l1 IH]; simpl; [done |].
  destruct e; simpl; by rewrite ?IH.
Qed.

Lemma logged_none l : Forall (λ e, is_delivery e = true) l → logged l = [].
Proof. induction 1 as [|e l He _ IH]; simpl; [done | by destruct e]. Qed.

(** ** The message loop *)

Lemma delivered_is_delivery m h o : delivered m h o → is_delivery (event o) = true.
Proof. intros [_ H]. by destruct (event o). Qed.

Lemma deliver_once h msg m t :
  ∃ c dt, deliver h msg (m, t) = (c, (m, dt ++ t)) ∧ Forall (delivered m h) dt ∧
          c ≠ Returned ∧
          (c = Undefined → connectionInfo m = None ∧
             ∃ l, onMessageCallback (webSocket m) = Some (ServerLambda l) ∧
                  lam_ci l = ByReference).
Proof.
  unfold deliver, bind, gets; simpl.
  destruct (onMessageCallback (webSocket m)) as [[f|l]|] eqn:Ecb.
  - unfold emit; simpl.
    exists (match f msg with Some e => Thrown e | None => Normal () end),
           [mkObs (EvAppCallback h msg) (snapshot m)].
    split_and!.
    + by destruct (f msg).
    + repeat constructor; simpl; eauto.
    + by destruct (f msg).
    + by destruct (f msg).
  - unfold invoke_lambda, bind, gets; simpl.
    destruct (_onClientMessageCallback (this m)) as [f|] eqn:Ehook.
    2:{ exists (Thrown bad_function_call), [].
        split_and!; [done | constructor | done | done]. }
    assert (∃ id, captured_connectionState (lam_connectionState l) (m, t) = (Normal id, (m, t))
                  ∧ (lam_connectionState l = ByCopy id ∨
                     lam_connectionState l = ByReference ∧ id = getId (connectionState m)))
      as (id & -> & Hid).
    { destruct (lam_connectionState l) as [id|]; [exists id | eexists]; eauto. }
    destruct (lam_ci l) as [ci|] eqn:Eci; simpl.
    + assert (∃ ws, captured_ws h (lam_ws l) (m, t) = (Normal ws, (m, t))
                    ∧ (lam_ws l = ByCopy ws ∨ lam_ws l = ByReference ∧ ws = h))
        as (ws & -> & Hws).
      { destruct (lam_ws l) as [ws|]; [exists ws | exists h]; eauto. }
      unfold emit; simpl.
      exists (match f id ci ws msg with Some e => Thrown e | None => Normal () end),
             [mkObs (EvOnClientMessage id ci ws msg) (snapshot m)].
      split_and!; try by destruct (f id ci ws msg).
      repeat constructor; simpl. exists l. rewrite Ehook, Eci. eauto 10.
    + unfold bind, gets; simpl. destruct (connectionInfo m) as [ci|] eqn:Eown; simpl.
      2:{ exists Undefined, [].
          split_and!; [done | constructor | done | eauto]. }
      assert (∃ ws, captured_ws h (lam_ws l) (m, t) = (Normal ws, (m, t))
                    ∧ (lam_ws l = ByCopy ws ∨ lam_ws l = ByReference ∧ ws = h))
        as (ws & -> & Hws).
      { destruct (lam_ws l) as [ws|]; [exists ws | exists h]; eauto. }
      unfold emit; simpl.
      exists (match f id ci ws msg with Some e => Thrown e | None => Normal () end),
             [mkObs (EvOnClientMessage id ci ws msg) (snapshot m)].
      split_and!; try by destruct (f id ci ws msg).
      repeat constructor; simpl. exists l. rewrite Ehook, Eci, Eown. eauto 10.
  - exists (Normal ()), [].
    split_and!; [done | constructor | done | done].
Qed.

Lemma deliver_loop h msgs m t :
  ∃ c dt, for_each msgs (deliver h) (m, t) = (c, (m, dt ++ t)) ∧
          Forall (delivered m h) dt ∧ c ≠ Returned ∧
          (c = Undefined → connectionInfo m = None ∧
             ∃ l, onMessageCallback (webSocket m) = Some (ServerLambda l) ∧
                  lam_ci l = ByReference).
Proof.
  revert t. induction msgs as [|msg msgs IH]; intros t.
  - exists (Normal ()), [].
    split_and!; [done | constructor | done | done].
  - destruct (deliver_once h msg m t) as (c1 & d1 & E1 & F1 & R1 & U1).
    simpl. unfold bind at 1. rewrite E1.
    destruct c1 as [[]| |e|].
    + destruct (IH (d1 ++ t)) as (c2 & d2 & E2 & F2 & R2 & U2).
      exists c2, (d2 ++ d1). rewrite E2, app_assoc.
      split_and!; [done | by apply Forall_app | done | done].
    + done.
    + exists (Thrown e), d1. done.
    + exists Undefined, d1. done.
Qed.

(** ** Evaluating the embedded code *)

Lemma erase_count_cases h (c : gset nat) :
  (erase_count h c = 1 ∧ h ∈ c) ∨ (erase_count h c = 0 ∧ h ∉ c).
Proof. unfold erase_count. destruct (decide (h ∈ c)); auto. Qed.

Lemma chronological_events l acc : chronological l acc = events (reverse l) ++ acc.
Proof.
  revert acc. induction l as [|o l IH]; intros acc; simpl; [done |].
  rewrite IH, reverse_cons. unfold events. rewrite fmap_app, <- app_assoc. done.
Qed.

Lemma events_reverse l : events (reverse l) = chronological l [].
Proof. by rewrite chronological_events, app_nil_r. Qed.

Lemma chronological_app l1 l2 acc :
  chronological (l1 ++ l2) acc = chronological l2 (events (reverse l1) ++ acc).
Proof.
  rewrite !chronological_events, reverse_app. unfold events.
  by rewrite fmap_app, <- app_assoc.
Qed.

Lemma delivered_served_ok m m0 h o :
  delivered m h o → snapshot m = snapshot m0 → clientsMutex m0 = false →
  served_snapshot_ok m0 o.
Proof.
  intros [Hs He] Hm Hmx. rewrite Hm in Hs. unfold served_snapshot_ok. rewrite Hs.
  destruct (event o); try done; simpl; split_and!; auto; done.
Qed.

(** Run the code in [H] as far as it goes.  The operations of the
    client set, the message loop and the log line of the handshake stay
    folded; [loop_in] and [erase_in] then split on how the message loop
    ended and on what the erase found. *)
Ltac eval_in H :=
  cbv -[String.app set_insert set_erase erase_count for_each deliver app handshake_error
        serve] in H.

Ltac loop_in H Hci :=
  match type of H with
  | context [for_each ?l (deliver ?h) (?m, ?t)] =>
      let c := fresh "c" in let dl := fresh "dl" in
      let E := fresh "Eloop" in let F := fresh "Hdl" in
      let R := fresh "Hret" in let U := fresh "Hund" in
      destruct (deliver_loop h l m t) as (c & dl & E & F & R & U);
      rewrite E in H; clear E;
      destruct c as [[]| | |];
      [ clear R U
      | exfalso; apply R; reflexivity
      | clear R U
      | exfalso;
        let U1 := fresh in let U2 := fresh in
        destruct U as (U1 & ? & U2 & _); [reflexivity |];
        simpl in U1, U2; first [ discriminate U2 | rewrite U1 in Hci; by destruct (Hci _ U2) ] ];
      eval_in H
  end.

Ltac erase_in H :=
  match type of H with
  | context [erase_count ?h ?X] =>
      let E := fresh "Ecount" in let I := fresh "Hin" in
      destruct (erase_count_cases h X) as [[E I]|[E I]];
      rewrite E in H; eval_in H
  end.

(** [l = ?dt ++ t]: peel the observations in front of [t]. *)
Ltac frame :=
  lazymatch goal with
  | |- ?t = ?dt ++ ?t => instantiate (1 := []); reflexivity
  | |- ?o :: ?l = ?dt ++ ?t => 
      let dt' := fresh "dt" in evar (dt' : list Obs);
      unify dt (o :: dt'); subst dt'; simpl; f_equal; frame
  | |- ?dl ++ ?l = ?dt ++ ?t =>
      let dt' := fresh "dt" in evar (dt' : list Obs);
      unify dt (dl ++ dt'); subst dt'; rewrite <- app_assoc; f_equal; frame
  end.

(** Each observation of [serve] satisfies [served_snapshot_ok]. *)
Ltac served_obs_ok :=
  unfold served_snapshot_ok; simpl; split_and!; intros; first [done | by left | by right].

Ltac served_trace_ok Hdl :=
  repeat first
    [ apply Forall_nil_2
    | apply Forall_cons_2; [served_obs_ok |]
    | apply Forall_app_2;
      [ eapply Forall_impl; [exact Hdl |];
        intros ? ?; eapply delivered_served_ok; [eassumption | reflexivity | reflexivity] |] ].

(** Close a case of [serve_path] with the path [s]. *)
Ltac conclude_served s Hdl :=
  exists s; eexists; eexists;
  split; [ refine (f_equal2 pair eq_refl (f_equal2 pair eq_refl _)); frame |];
  split;
  [ rewrite events_reverse; simpl; rewrite ?chronological_app; simpl;
    unfold drain_events, clients_at_run, clients_at_handshake; simpl;
    repeat match goal with E : erase_count _ _ = _ |- _ => rewrite E end;
    rewrite ?app_nil_r; reflexivity
  | do 5 (split; [reflexivity |]); split; [served_trace_ok Hdl |];
    split_and?; try reflexivity;
    try (apply Forall_reverse; eapply Forall_impl; [exact Hdl | intros ? H; exact H]) ].

(** The four ways through [serve]: what it answers, the calls it makes,
    and the memory it leaves. *)
Lemma serve_path env socket m t :
  clientsMutex m = false →
  (∀ c, onMessageCallback (webSocket m) = Some (ServerLambda c) →
        is_Some (connectionInfo m)) →
  ∃ s m' dt,
    serve env socket (env_make_shared env) (m, t) = (served_completion s, (m', dt ++ t)) ∧
    events (reverse dt) =
      served_events env socket (getId (connectionState m))
                    (_handshakeTimeoutSecs (this m)) (_clients (this m)) s ∧
    this m' = set_clients (served_clients env socket (_handshakeTimeoutSecs (this m))
                                          (_clients (this m)) s) (this m) ∧
    webSocket m' =
      (if drained s
       then mkWebSocket None (automaticReconnection (webSocket m)) (pongEnabled (webSocket m))
                        (perMessageDeflateEnabled (webSocket m))
       else webSocket m) ∧
    connectionState m' =
      (if drained s then mkConnectionState (getId (connectionState m)) true
       else connectionState m) ∧
    connectionInfo m' = connectionInfo m ∧
    clientsMutex m' = false ∧
    Forall (served_snapshot_ok m) dt ∧
    match s with
    | HandshakeThrew e => env_connectToSocket env = inr e
    | HandshakeFailed status =>
        env_connectToSocket env = inl status ∧ success status = false
    | RunThrew status deliveries _ | RunReturned status deliveries =>
        env_connectToSocket env = inl status ∧ success status = true ∧
        Forall (delivered m (env_make_shared env)) deliveries ∧
        (if s is RunReturned _ _ then env_run env = None else True)
    end.
Proof.
  intros Hmx Hci.
  destruct m as [srv ws cs oci mx]. simpl in Hmx. subst mx.
  destruct srv as [b to pong d oc om cl]. destruct env as [h w0 cts inc rn oth].
  destruct ws as [slot ar pe de]. destruct cs as [id term].
  remember (serve _ _ _ _) as r eqn:Er. unfold serve in Er.
  destruct cts as [[[] hs es]|e].
  - destruct rn as [ex|]; eval_in Er; loop_in Er Hci; try erase_in Er; subst r.
    + conclude_served (RunThrew (mkInitResult true hs es) (reverse dl) ex) Hdl.
    + conclude_served (RunThrew (mkInitResult true hs es) (reverse dl) e) Hdl.
    + conclude_served (RunReturned (mkInitResult true hs es) (reverse dl)) Hdl.
    + conclude_served (RunReturned (mkInitResult true hs es) (reverse dl)) Hdl.
    + conclude_served (RunThrew (mkInitResult true hs es) (reverse dl) e) Hdl.
  - eval_in Er; erase_in Er; subst r.
    + conclude_served (HandshakeFailed (mkInitResult false hs es)) I.
    + conclude_served (HandshakeFailed (mkInitResult false hs es)) I.
  - eval_in Er. subst r. conclude_served (HandshakeThrew e) I.
Qed.

Lemma served_ok_snapshot_ok ci m o :
  served_snapshot_ok m o →
  (∀ c, onMessageCallback (webSocket m) = Some (ServerLambda c) →
        connectionInfo m = Some ci) →
  snapshot_ok ci o.
Proof.
  intros (H1 & H2 & H3 & H4 & H5) Hm. unfold snapshot_ok. split_and!; try done.
  intros c Hc. rewrite H5. destruct H4 as [H4|H4]; rewrite H4 in Hc; [eauto | done].
Qed.

Lemma delivered_via env id ci d m o :
  delivered m (env_make_shared env) o →
  snapshot m = {| snap_callback := Some (callback_of id d);
                  snap_connectionInfo := if d is ViaOnClientMessage then Some ci else None;
                  snap_clientsMutex := false |} →
  delivery_of env id ci d o.
Proof.
  intros [Hs He] Hm. split; [congruence |].
  assert (onMessageCallback (webSocket m) = Some (callback_of id d)) as Hslot
    by (by injection Hm).
  assert (connectionInfo m = if d is ViaOnClientMessage then Some ci else None) as Hci
    by (by injection Hm).
  destruct (event o) as [| | | | | | | | | | | | | | | | | | |ws msg|id' ci' ws msg| | | |];
    try done.
  - destruct He as (-> & f & Hf). exists msg. rewrite Hf in Hslot.
    destruct d; [done | discriminate Hslot].
  - destruct He as (c & Hc & _ & Hid & Hci' & Hws). exists msg. rewrite Hc in Hslot.
    destruct d; [discriminate Hslot |]. injection Hslot as ->. simpl in *.
    destruct Hid as [Hid | [? _]]; [| done]. injection Hid as ->.
    destruct Hci' as [? | [_ Hci']]; [done |]. rewrite Hci in Hci'. injection Hci' as ->.
    destruct Hws as [? | [_ ->]]; [done |]. done.
Qed.

(** ** The path of a connection *)

Ltac path_obs_ok :=
  unfold snapshot_ok; simpl; split_and!; intros; first [done | by eauto].

Ltac path_trace_ok Hok :=
  repeat first
    [ apply Forall_nil_2
    | apply Forall_cons_2; [path_obs_ok |]
    | apply Forall_app_2;
      [ eapply Forall_impl; [exact Hok |];
        intros ? ?; eapply served_ok_snapshot_ok; [eassumption |];
        simpl; intros; first [done | by eauto] |] ].

(** Replace the call of [serve] in [H] by what [serve_path] says of it. *)
Ltac serve_in H :=
  match type of H with
  | context [serve ?e ?sock ?h (?m, ?t)] =>
      let Hpre := fresh "Hpre" in
      assert (∀ c, onMessageCallback (webSocket m) = Some (ServerLambda c) →
                   is_Some (connectionInfo m)) as Hpre
        by (cbn [onMessageCallback webSocket connectionInfo]; intros;
            first [done | by eauto]);
      let s := fresh "s" in let m' := fresh "m'" in let dt := fresh "dt" in
      let E := fresh "E" in let HH := fresh "HH" in
      let Hev := fresh "Hev" in let Hthis := fresh "Hthis" in let Hws := fresh "Hws" in
      let Hcs := fresh "Hcs" in let Hoci := fresh "Hoci" in let Hmx := fresh "Hmx" in
      let Hok := fresh "Hok" in let Hcond := fresh "Hcond" in
      let srv' := fresh "srv'" in let ws' := fresh "ws'" in let cs' := fresh "cs'" in
      let oci' := fresh "oci'" in let mx' := fresh "mx'" in
      pose proof (serve_path e sock m t eq_refl Hpre) as HH;
      cbn [this webSocket connectionState connectionInfo clientsMutex getId
           _handshakeTimeoutSecs _clients automaticReconnection pongEnabled
           perMessageDeflateEnabled onMessageCallback env_make_shared] in HH;
      destruct HH as (s & m' & dt & E & Hev & Hthis & Hws & Hcs & Hoci & Hmx & Hok & Hcond);
      clear Hpre;
      rewrite E in H; clear E;
      destruct m' as [srv' ws' cs' oci' mx'];
      cbn [this webSocket connectionState connectionInfo clientsMutex]
        in Hthis, Hws, Hcs, Hoci, Hmx;
      subst srv' ws' cs' oci' mx';
      destruct s; eval_in H
  end.

Ltac path_events_eq :=
  unfold trace; cbn [fst snd]; rewrite events_reverse; simpl;
  rewrite ?chronological_app; simpl;
  repeat match goal with E : events (reverse _) = _ |- _ => rewrite E end;
  rewrite ?app_nil_r; reflexivity.

Ltac conclude_path p Hok :=
  exists p;
  split; [ | split; [reflexivity |]; split; [path_events_eq |];
             (do 5 (split; [reflexivity |]));
             unfold trace; cbn [fst snd]; apply Forall_reverse; path_trace_ok Hok ].

Ltac conclude_enrolled d Hev Hok :=
  match type of Hev with
  | events _ = served_events _ _ _ _ _ ?s => conclude_path (Enrolled d s) Hok
  end.

Ltac deliveries_via Hcond :=
  cbn [served] in Hcond |- *;
  first
    [ exact Hcond
    | let Hdl := fresh "Hdl" in
      destruct Hcond as (? & ? & Hdl & ?); split_and!; try done;
      eapply Forall_impl; [exact Hdl |];
      intros ? ?; eapply delivered_via; [eassumption | reflexivity] ].

(** Every call of [handleConnection] takes one of the paths: the inputs
    decide which ([takes]), and the path gives the completion, the calls
    in order, and the memory that is left; the snapshots taken on the way
    satisfy [snapshot_ok]. *)
Lemma connection_path env server socket id ci :
  let r := connection env server socket id ci in
  ∃ p, takes env server id ci p ∧
       completion r = path_completion p ∧
       events (trace r) = path_events env server socket id ci p ∧
       this (final r) = set_clients (path_clients env server socket p) server ∧
       webSocket (final r) = path_webSocket env server id p ∧
       isTerminated (connectionState (final r))
         = (if path_completion p is Normal _ then true else false) ∧
       connectionInfo (final r) = None ∧
       clientsMutex (final r) = false ∧
       Forall (snapshot_ok ci) (trace r).
Proof.
  intros r. subst r.
  destruct server as [b to pong d oc om cl]. destruct env as [h w0 cts inc rn oth].
  remember (connection _ _ _ _ _) as r eqn:Er.
  destruct oc as [cb|].
  - eval_in Er. remember (cb h id ci) as res eqn:Ehook in Er.
    destruct res as [[|[g|]]|e].
    + eval_in Er. subst r. conclude_path CallbackForgot I. simpl. eauto.
    + destruct pong; eval_in Er; serve_in Er; subst r.
      all: conclude_enrolled (ViaOnConnection g) Hev Hok.
      all: (split; [cbn [dispatched]; eauto | deliveries_via Hcond]).
    + eval_in Er. subst r. conclude_path CallbackForgot I. simpl. eauto.
    + eval_in Er. subst r. conclude_path (CallbackThrew e) I. simpl. eauto.
  - destruct om as [f|].
    + destruct pong; eval_in Er; serve_in Er; subst r.
      all: conclude_enrolled ViaOnClientMessage Hev Hok.
      all: (split; [cbn [dispatched]; eauto | deliveries_via Hcond]).
    + eval_in Er. subst r. conclude_path NoCallback I. done.
Qed.

(** ** Observers on the events of a path *)

Lemma elem_of_count p (e : Event) (l : list Event) : e ∈ l → p e = true → 0 < count p l.
Proof.
  intros He Hp. induction l as [|x l IH]; [by apply elem_of_nil in He |].
  apply elem_of_cons in He as [<- | He]; simpl.
  - rewrite Hp. lia.
  - specialize (IH He). lia.
Qed.

Lemma elem_of_project {A} (f : Event → option A) e a (l : list Event) :
  e ∈ l → f e = Some a → a ∈ omap f l.
Proof. intros He Hf. apply list_elem_of_omap. eauto. Qed.

Section Deliveries.
Context (env : Env) (id : string) (ci : ConnectionInfo) (d : Dispatch).
Context (dl : list Obs) (Hdl : Forall (delivery_of env id ci d) dl).

Lemma deliveries_are_deliveries : Forall (λ e, is_delivery e = true) (events dl).
Proof.
  unfold events. rewrite Forall_fmap. eapply Forall_impl; [exact Hdl |].
  intros o [_ [msg He]]. simpl. rewrite He. by destruct d.
Qed.

Lemma count_deliveries p :
  (∀ e, is_delivery e = true → p e = false) → count p (events dl) = 0.
Proof.
  intros Hp. apply count_none.
  eapply Forall_impl; [apply deliveries_are_deliveries | done].
Qed.

Lemma logged_deliveries : logged (events dl) = [].
Proof. apply logged_none, deliveries_are_deliveries. Qed.

Lemma project_deliveries {A} (f : Event → option A) :
  (∀ e, is_delivery e = true → f e = None) → omap f (events dl) = [].
Proof.
  intros Hf. generalize deliveries_are_deliveries.
  induction 1 as [|e l He _ IH]; simpl; [done |]. by rewrite (Hf e He).
Qed.

Lemma after_deliveries p l :
  (∀ e, is_delivery e = true → p e = false) →
  after p (events dl ++ l) = after p l.
Proof.
  intros Hp. apply after_skip.
  eapply Forall_impl; [apply deliveries_are_deliveries | done].
Qed.

Lemma guarded_deliveries p q l :
  (∀ e, is_delivery e = true → p e = false ∧ q e = false) →
  guarded p q (events dl ++ l) = guarded p q l.
Proof.
  intros Hp. apply guarded_skip.
  eapply Forall_impl; [apply deliveries_are_deliveries | done].
Qed.

Lemma guarded_only_deliveries p q :
  (∀ e, is_delivery e = true → p e = false ∧ q e = false) →
  guarded p q (events dl) = true.
Proof.
  intros Hp. rewrite <- (app_nil_r (events dl)). by rewrite guarded_deliveries.
Qed.
End Deliveries.

Lemma count_app_callbacks p env id ci f dl :
  (∀ ws msg, p (EvAppCallback ws msg) = false) →
  Forall (delivery_of env id ci (ViaOnConnection f)) dl → count p (events dl) = 0.
Proof.
  intros Hp Hdl. apply count_none. unfold events. rewrite Forall_fmap.
  eapply Forall_impl; [exact Hdl |]. intros o [_ [msg He]]. simpl. by rewrite He.
Qed.

Lemma hook_calls_of_deliveries env id ci dl :
  Forall (delivery_of env id ci ViaOnClientMessage) dl →
  Forall (λ x, ∃ msg, x = (id, ci, env_make_shared env, msg))
         (omap hook_call (events dl)).
Proof.
  induction 1 as [|o l [_ [msg He]] _ IH]; simpl; [constructor |].
  rewrite He. simpl. constructor; eauto.
Qed.

(** ** The client set *)

Lemma erase_count_insert h (c : gset nat) : erase_count h (set_insert h c) = 1.
Proof.
  unfold erase_count, set_insert. apply decide_True.
  apply elem_of_union_l, elem_of_singleton_2. reflexivity.
Qed.

Lemma set_erase_insert h (c : gset nat) : h ∉ c → set_erase h (set_insert h c) = c.
Proof.
  intros Hfresh. unfold set_erase, set_insert. apply set_eq. intros x.
  rewrite elem_of_difference, elem_of_union, !elem_of_singleton. split.
  - intros [[-> | Hx] Hne]; done.
  - intros Hx. split; [by right | by intros ->].
Qed.

(** Take the path of a connection. *)
Ltac on_path env server socket id ci :=
  let p := fresh "p" in
  destruct (connection_path env server socket id ci)
    as (p & Htakes & Hcompletion & Hevents & Hthis & Hws & Hterm & Hoci & Hmx & Hok);
  rewrite ?Hcompletion, ?Hevents, ?Hthis, ?Hws, ?Hterm, ?Hoci, ?Hmx in *.

Ltac unfold_path :=
  unfold path_events, named_events, dispatch_events, configure_events, enroll_events,
         served_events, handshake_events, drain_events, epilogue_events,
         developer_error_events, clients_at_run, clients_at_handshake in *.

Ltac erase_cases :=
  repeat match goal with
         | |- context [erase_count ?h ?c] =>
             let I := fresh "Hin" in
             destruct (erase_count_cases h c) as [[-> I]|[-> I]]
         | H : context [erase_count ?h ?c] |- _ =>
             let I := fresh "Hin" in
             destruct (erase_count_cases h c) as [[-> I]|[-> I]]
         end.

(** Split an enrolled path into its shapes, with the events in the open. *)
Ltac enrolled_cases server d :=
  destruct d; unfold_path; destruct (_enablePong server); erase_cases.

(** Push the observers through the events of a path. *)
Ltac observe Hdl :=
  repeat first
    [ progress simpl
    | rewrite app_nil_r
    | rewrite <- app_assoc
    | rewrite count_app
    | rewrite logged_app
    | rewrite omap_app
    | erewrite count_deliveries by (first [exact Hdl | by intros []])
    | erewrite logged_deliveries by exact Hdl
    | erewrite project_deliveries by (first [exact Hdl | by intros []])
    | erewrite after_deliveries by (first [exact Hdl | by intros []])
    | erewrite guarded_deliveries by (first [exact Hdl | by intros []])
    | erewrite guarded_only_deliveries by (first [exact Hdl | by intros []]) ].

(** ** How a connection ends *)

(** The message loop ends with the first exception a handler throws. *)
Lemma deliver_loop_exact h msgs m t answer :
  (∀ msg t', ∃ dt, deliver h msg (m, t') = (completion_of (answer msg), (m, dt ++ t'))) →
  ∃ dt, for_each msgs (deliver h) (m, t) =
          (completion_of (first_exception answer msgs), (m, dt ++ t)).
Proof.
  intros Hone. revert t. induction msgs as [|msg msgs IH]; intros t.
  - by exists [].
  - destruct (Hone msg t) as (d1 & E1). simpl. unfold bind at 1. rewrite E1.
    destruct (answer msg) as [e|]; simpl.
    + by exists d1.
    + destruct (IH (d1 ++ t)) as (d2 & E2). exists (d2 ++ d1).
      by rewrite E2, app_assoc.
Qed.

Lemma deliver_app_callback h msg m t f :
  onMessageCallback (webSocket m) = Some (AppCallback f) →
  ∃ dt, deliver h msg (m, t) = (completion_of (f msg), (m, dt ++ t)).
Proof.
  intros Hslot. unfold deliver, bind, gets. simpl. rewrite Hslot.
  exists [mkObs (EvAppCallback h msg) (snapshot m)]. unfold emit. simpl.
  by destruct (f msg).
Qed.

Lemma deliver_server_lambda h msg m t id ci hook :
  onMessageCallback (webSocket m) = Some (client_message_lambda id) →
  connectionInfo m = Some ci →
  _onClientMessageCallback (this m) = Some hook →
  ∃ dt, deliver h msg (m, t) = (completion_of (hook id ci h msg), (m, dt ++ t)).
Proof.
  intros Hslot Hci Hhook. unfold deliver, bind, gets. simpl. rewrite Hslot.
  unfold client_message_lambda, invoke_lambda, captured_connectionState, captured_ci,
    captured_ws, bind, gets, ret, emit.
  cbn [fst snd lam_ws lam_connectionState lam_ci compose]. rewrite Hhook.
  cbn [fst snd]. rewrite Hci.
  exists [mkObs (EvOnClientMessage id ci h msg) (snapshot m)]. simpl.
  by destruct (hook id ci h msg).
Qed.

(** [serve] ends as [expected_completion] says. *)
Lemma serve_completion env socket m t d id ci :
  onMessageCallback (webSocket m) = Some (callback_of id d) →
  (if d is ViaOnClientMessage
   then connectionInfo m = Some ci ∧ is_Some (_onClientMessageCallback (this m))
   else True) →
  (serve env socket (env_make_shared env) (m, t)).1 = expected_completion env (this m) id ci d.
Proof.
  intros Hslot Hd.
  destruct m as [srv ws cs oci mx].
  destruct srv as [b to pong dfl oc om cl]. destruct env as [h w0 cts inc rn oth].
  destruct ws as [slot ar pe de]. destruct cs as [id' term].
  simpl in Hslot, Hd. subst slot.
  assert (∀ cl' mx', ∃ answer,
            answer = handler_of (mkWebSocketServer b to pong dfl oc om cl) id ci h d ∧
            ∀ msg t'', ∃ dt,
              deliver h msg
                (mkMem (mkWebSocketServer b to pong dfl oc om cl')
                       (mkWebSocket (Some (callback_of id d)) ar pe de)
                       (mkConnectionState id' term) oci mx', t'') =
              (completion_of (answer msg),
               (mkMem (mkWebSocketServer b to pong dfl oc om cl')
                      (mkWebSocket (Some (callback_of id d)) ar pe de)
                      (mkConnectionState id' term) oci mx', dt ++ t''))) as Hone.
  { intros cl' mx'. eexists. split; [reflexivity |]. intros msg t''.
    destruct d as [g|].
    - by apply deliver_app_callback.
    - destruct Hd as [-> [hook ->]]. by apply (deliver_server_lambda _ _ _ _ id ci hook). }
  clear Hd.
  unfold expected_completion, run_exception.
  cbn [env_connectToSocket env_incoming env_run env_make_shared this].
  remember (serve _ _ _ _) as r eqn:Er. unfold serve in Er.
  destruct cts as [[[] hs es]|e]; cbn [success].
  - eval_in Er.
    match type of Er with
    | context [for_each ?l (deliver ?h) (?m, ?t)] =>
        let E := fresh "E" in let dl := fresh "dl" in
        let answer := fresh "answer" in let Ha := fresh "Ha" in let H1 := fresh "H1" in
        destruct (Hone (_clients (this m)) (clientsMutex m)) as (answer & Ha & H1);
        destruct (deliver_loop_exact h l m t answer (H1)) as (dl & E);
        rewrite E in Er; clear E; subst answer
    end.
    destruct (first_exception _ inc) as [e|]; [subst r; reflexivity |].
    destruct rn as [e|]; eval_in Er; [subst r; reflexivity |].
    erase_in Er; subst r; reflexivity.
  - eval_in Er. erase_in Er; subst r; reflexivity.
  - eval_in Er. subst r. reflexivity.
Qed.

Ltac completion_in H d id ci :=
  match type of H with
  | context [serve ?e ?sock ?h (?m, ?t)] =>
      let Hc := fresh "Hc" in let c := fresh "c" in
      let m' := fresh "m'" in let t' := fresh "t'" in
      assert ((serve e sock h (m, t)).1 = expected_completion e (this m) id ci d) as Hc
        by (apply (serve_completion e sock m t d id ci); [reflexivity | simpl; eauto]);
      destruct (serve e sock h (m, t)) as [c [m' t']];
      cbn [fst] in Hc; subst c
  end.

Lemma enrolled_completion env server socket id ci d :
  dispatched env server id ci d →
  completion (connection env server socket id ci) = expected_completion env server id ci d.
Proof.
  intros Hd.
  destruct server as [b to pong dfl oc om cl]. destruct env as [h w0 cts inc rn oth].
  remember (connection _ _ _ _ _) as r eqn:Er.
  destruct d as [g|]; simpl in Hd.
  - destruct Hd as (cb & -> & Hcb). eval_in Er. rewrite Hcb in Er.
    destruct pong; eval_in Er; completion_in Er (ViaOnConnection g) id ci.
    all: unfold expected_completion, run_exception in *.
    all: cbn [env_connectToSocket env_incoming env_run env_make_shared this] in *.
    all: destruct cts as [[[] hs es]|e]; cbn [success] in *;
      [ destruct (first_exception _ inc) as [e|]; [| destruct rn as [e|]] | |].
    all: eval_in Er; subst r; reflexivity.
  - destruct Hd as [-> [hook ->]].
    destruct pong; eval_in Er; completion_in Er ViaOnClientMessage id ci.
    all: unfold expected_completion, run_exception in *.
    all: cbn [env_connectToSocket env_incoming env_run env_make_shared this] in *.
    all: destruct cts as [[[] hs es]|e]; cbn [success] in *;
      [ destruct (first_exception _ inc) as [e|]; [| destruct rn as [e|]] | |].
    all: eval_in Er; subst r; reflexivity.
Qed.

Lemma dispatched_enrolled env server id ci d p :
  dispatched env server id ci d → takes env server id ci p →
  ∃ s, p = Enrolled d s.
Proof.
  intros Hd Hp. destruct p as [|e| |d' s]; simpl in Hp.
  - destruct Hp as [Hoc Hom]. destruct d; simpl in Hd.
    + destruct Hd as (cb & Hcb & _). congruence.
    + destruct Hd as [_ [f Hf]]. congruence.
  - destruct Hp as (cb & Hcb & He). destruct d; simpl in Hd.
    + destruct Hd as (cb' & Hcb' & He'). congruence.
    + destruct Hd as [Hoc _]. congruence.
  - destruct Hp as (cb & Hcb & He). destruct d; simpl in Hd.
    + destruct Hd as (cb' & Hcb' & He'). destruct He; congruence.
    + destruct Hd as [Hoc _]. congruence.
  - destruct Hp as [Hd' _]. exists s. f_equal.
    destruct d as [f|], d' as [f'|]; simpl in Hd, Hd'.
    + destruct Hd as (cb & Hcb & He), Hd' as (cb' & Hcb' & He'). congruence.
    + destruct Hd as (cb & Hcb & _), Hd' as [Hoc _]. congruence.
    + destruct Hd' as (cb & Hcb & _), Hd as [Hoc _]. congruence.
    + reflexivity.
Qed.

Lemma hook_exception_completion env server socket id ci cb e :
  _onConnectionCallback server = Some cb →
  cb (env_make_shared env) id ci = inr e →
  completion (connection env server socket id ci) = Thrown e.
Proof.
  intros Hcb He. on_path env server socket id ci.
  destruct p as [|e'| |d s]; simpl in Htakes.
  - destruct Htakes as [Hoc _]. congruence.
  - destruct Htakes as (cb' & Hcb' & He'). simpl. congruence.
  - destruct Htakes as (cb' & Hcb' & [He'|He']); congruence.
  - destruct Htakes as [Hd _]. destruct d; simpl in Hd.
    + destruct Hd as (cb' & Hcb' & He'). congruence.
    + destruct Hd as [Hoc _]. congruence.
Qed.

Lemma thrown_is_not_terminated env server socket id ci e :
  completion (connection env server socket id ci) = Thrown e →
  count is_setTerminated (events (trace (connection env server socket id ci))) = 0 ∧
  isTerminated (connectionState (final (connection env server socket id ci))) = false.
Proof.
  intros Hthrown. on_path env server socket id ci.
  destruct p as [|e'| |d s]; try discriminate Hthrown; [by simpl |].
  destruct Htakes as [_ Hs].
  destruct s as [e'|st|st dl e'|st dl]; try discriminate Hthrown; cbn [served] in Hs;
    [| destruct Hs as (_ & _ & Hdl & _)].
  all: split; [| reflexivity]; enrolled_cases server d; observe Hdl; reflexivity.
Qed.

Lemma dispatched_onClientMessage env server id ci hook :
  _onConnectionCallback server = None → _onClientMessageCallback server = Some hook →
  dispatched env server id ci ViaOnClientMessage.
Proof. intros Hoc Hom. split; [exact Hoc | by exists hook]. Qed.

(** * The properties

    ** C1: the option flags *)

(** The session's permessage-deflate setting is never written: when the
    handler is left it is what the engine's constructor made it,
    whatever the server's [_enablePerMessageDeflate]. *)
Lemma deflate_flag_is_not_applied env server socket id ci :
  let r := connection env server socket id ci in
  perMessageDeflateEnabled (webSocket (final r))
    = perMessageDeflateEnabled (env_new_WebSocket env).
Proof.
  intros r. subst r. on_path env server socket id ci.
  by destruct p as [|e| |d s].
Qed.

(** The pong flag is applied: an enrolled session has the server's. *)
Lemma pong_flag_is_applied env server socket id ci :
  let r := connection env server socket id ci in
  count is_insert (events (trace r)) = 1 →
  pongEnabled (webSocket (final r)) = _enablePong server ∧
  (if _enablePong server then EvEnablePong (env_make_shared env)
   else EvDisablePong (env_make_shared env)) ∈ events (trace r).
Proof.
  intros r. subst r. on_path env server socket id ci.
  destruct p as [|e| |d s]; [discriminate ..|]. intros _. split; [done |].
  unfold path_events, named_events, configure_events.
  rewrite !elem_of_app. right. right. left. apply elem_of_cons. right.
  apply list_elem_of_singleton. reflexivity.
Qed.

(** C1 fails on the code: after [disablePerMessageDeflate()] the server's
    flag is false, but a connection configured afterwards makes the same
    calls on its session as one configured before, none of which concerns
    permessage-deflate, and its session is left with permessage-deflate
    enabled.  (The pong flag is applied: this session has pong enabled,
    as the server has.) *)
Theorem disablePerMessageDeflate_has_no_effect :
  _enablePerMessageDeflate server_no_deflate = false ∧
  perMessageDeflateEnabled
    (webSocket (final (connection env_happy server_no_deflate 4 "c1" ci0))) = true ∧
  events (trace (connection env_happy server_no_deflate 4 "c1" ci0))
    = events (trace (connection env_happy server_onClientMessage 4 "c1" ci0)) ∧
  webSocket (final (connection env_happy server_no_deflate 4 "c1" ci0))
    = webSocket (final (connection env_happy server_onClientMessage 4 "c1" ci0)) ∧
  pongEnabled (webSocket (final (connection env_happy server_no_deflate 4 "c1" ci0)))
    = _enablePong server_no_deflate.
Proof. vm_compute. done. Qed.

(** C2: when the handshake fails, the session has been inserted into the
    client set before [connectToSocket] was called and is erased once
    afterwards; the handshake is attempted once, [run()] is not called;
    and the client set ends as the other threads left it, minus the
    session: when they left it alone, it is again what it was before the
    connection. *)
Theorem failed_handshake_is_enrolled_then_erased env server socket id ci status :
  let r := connection env server socket id ci in
  let h := env_make_shared env in
  let timeout := _handshakeTimeoutSecs server in
  let enrolled := set_insert h (_clients server) in
  let at_handshake := clients_at_handshake env socket timeout enrolled in
  EvConnectReturned h status ∈ events (trace r) →
  success status = false →
  completion r = Normal () ∧
  (∃ pre post,
      events (trace r) =
        pre ++
        [EvLock; EvInsert h; EvUnlock;
         EvConnectToSocket h socket timeout; EvConnectReturned h status;
         EvLogError (handshake_error status);
         EvSetOnMessageCallback h None;
         EvLock; EvErase h (erase_count h at_handshake)] ++
        post) ∧
  count is_insert (events (trace r)) = 1 ∧
  count is_connectToSocket (events (trace r)) = 1 ∧
  count is_erase (events (trace r)) = 1 ∧
  count is_run (events (trace r)) = 0 ∧
  _clients (this (final r)) = set_erase h at_handshake ∧
  (h ∉ _clients server → at_handshake = enrolled →
   erase_count h at_handshake = 1 ∧
   _clients (this (final r)) = _clients server ∧
   size (_clients (this (final r))) = size (_clients server)).
Proof.
  intros r h timeout enrolled at_handshake Hin Hfail.
  subst r h timeout enrolled at_handshake. on_path env server socket id ci.
  apply (elem_of_project handshake_status _ status) in Hin; [| done].
  destruct p as [|e| |d s]; try (by apply elem_of_nil in Hin).
  destruct Htakes as [Hd Hs].
  assert (∃ st, s = HandshakeFailed st) as [st ->].
  { destruct s as [e|st|st dl e|st dl]; cbn [served] in Hs;
      [ | by eauto | destruct Hs as (_ & Hst & Hdl & _) ..]; exfalso; revert Hin;
      enrolled_cases server d; observe Hdl; rewrite ?list_elem_of_singleton;
      first [apply elem_of_nil | congruence]. }
  assert (status = st) as <-.
  { revert Hin. enrolled_cases server d; observe I; by rewrite list_elem_of_singleton. }
  clear Hin. split; [reflexivity |]. split.
  { exists (named_events env id ++ dispatch_events env id ci d ++
            configure_events env server),
           ((if Nat.eqb (erase_count (env_make_shared env)
                 (clients_at_handshake env socket (_handshakeTimeoutSecs server)
                    (set_insert (env_make_shared env) (_clients server)))) 1
             then [] else [EvLogError "Cannot delete client"]) ++
            [EvUnlock; EvSetTerminated id] ++ epilogue_events ci d).
    destruct d; unfold_path; erase_cases; reflexivity. }
  split_and!; try (enrolled_cases server d; reflexivity).
  simpl. unfold clients_at_handshake. intros Hfresh ->.
  by rewrite erase_count_insert, set_erase_insert.
Qed.

Lemma failed_handshake_is_enrolled_then_erased_witness :
  EvConnectReturned 7 handshake_timeout
    ∈ events (trace (connection env_failed server_onClientMessage 4 "c1" ci0)) ∧
  success handshake_timeout = false ∧
  count is_run (events (trace (connection env_failed server_onClientMessage 4 "c1" ci0))) = 0 ∧
  size (_clients (this (final (connection env_failed server_onClientMessage 4 "c1" ci0))))
    = size (_clients server_onClientMessage).
Proof.
  assert (EvConnectReturned 7 handshake_timeout
            ∈ events (trace (connection env_failed server_onClientMessage 4 "c1" ci0)))
    as H.
  { vm_compute. repeat constructor. }
  split; [exact H |]. split; [reflexivity |].
  destruct (failed_handshake_is_enrolled_then_erased
              env_failed server_onClientMessage 4 "c1" ci0 handshake_timeout H eq_refl)
    as (_ & _ & _ & _ & _ & Hrun & _ & Hsize).
  split; [exact Hrun |].
  apply Hsize; [| reflexivity].
  vm_compute. intros Hin. discriminate Hin.
Defined.

(** A call of [handleConnection] either returns, having called
    [setTerminated()] exactly once as its last call, or ends with an
    exception that the [OnConnection] hook, [connectToSocket] or [run()]
    threw, without [setTerminated()]; it returns on each of the four named
    paths. *)
Lemma handleConnection_ends_terminated_or_thrown env server socket id ci :
  let r := connection env server socket id ci in
  let h := env_make_shared env in
  ((completion r = Normal () ∧
    count is_setTerminated (events (trace r)) = 1 ∧
    isTerminated (connectionState (final r)) = true ∧
    (after is_setTerminated (events (trace r)) = [] ∨
     after is_setTerminated (events (trace r)) = [EvDestroyConnectionInfo ci]))
   ∨
   (∃ e, completion r = Thrown e ∧
         count is_setTerminated (events (trace r)) = 0 ∧
         isTerminated (connectionState (final r)) = false ∧
         ((∃ cb, _onConnectionCallback server = Some cb ∧ cb h id ci = inr e) ∨
          env_connectToSocket env = inr e ∨
          (count is_run (events (trace r)) = 1 ∧
           count is_runReturned (events (trace r)) = 0))))
  ∧
  ((_onConnectionCallback server = None ∧ _onClientMessageCallback server = None) ∨
   EvIsOnMessageCallbackRegistered h false ∈ events (trace r) ∨
   (∃ status, EvConnectReturned h status ∈ events (trace r) ∧ success status = false) ∨
   EvRunReturned h ∈ events (trace r) →
   completion r = Normal ()).
Proof.
  intros r h. subst r h. on_path env server socket id ci.
  destruct p as [|e| |d s].
  - split; [left | done]. simpl. auto.
  - split.
    + right. exists e. simpl. destruct Htakes as (cb & Hcb & He). eauto 10.
    + intros [[Hoc _] | [H | [(st & H & _) | H]]]; exfalso.
      * destruct Htakes as (cb & Hcb & _). congruence.
      * apply (elem_of_count is_unregistered) in H; [simpl in H; lia | done].
      * apply (elem_of_count is_connectReturned) in H; [simpl in H; lia | done].
      * apply (elem_of_count is_runReturned) in H; [simpl in H; lia | done].
  - split; [left | done]. simpl. auto.
  - destruct Htakes as [Hd Hs].
    destruct s as [e|st|st dl e|st dl]; cbn [served] in Hs;
      [ | | destruct Hs as (Hcts & Hst & Hdl & _) ..].
    + split.
      * right. exists e. split; [done |].
        enrolled_cases server d; observe I; split_and!; eauto.
      * intros [[Hoc Hom] | [H | [(st & H & _) | H]]]; exfalso.
        -- destruct d; simpl in Hd; [destruct Hd as (cb & Hcb & _) | destruct Hd as [_ [f Hf]]];
             congruence.
        -- apply (elem_of_count is_unregistered) in H; [| done]. revert H.
           enrolled_cases server d; observe I; lia.
        -- apply (elem_of_count is_connectReturned) in H; [| done]. revert H.
           enrolled_cases server d; observe I; lia.
        -- apply (elem_of_count is_runReturned) in H; [| done]. revert H.
           enrolled_cases server d; observe I; lia.
    + split; [left | done]. split; [done |].
      enrolled_cases server d; observe I; split_and!; auto.
    + split.
      * right. exists e. split; [done |].
        enrolled_cases server d; observe Hdl; split_and!; eauto.
      * intros [[Hoc Hom] | [H | [(status & H & Hfail) | H]]]; exfalso.
        -- destruct d; simpl in Hd; [destruct Hd as (cb & Hcb & _) | destruct Hd as [_ [f Hf]]];
             congruence.
        -- apply (elem_of_count is_unregistered) in H; [| done]. revert H.
           enrolled_cases server d; observe Hdl; lia.
        -- apply (elem_of_project handshake_status _ status) in H; [| done]. revert H.
           enrolled_cases server d; observe Hdl; rewrite list_elem_of_singleton; congruence.
        -- apply (elem_of_count is_runReturned) in H; [| done]. revert H.
           enrolled_cases server d; observe Hdl; lia.
    + split; [left | done]. split; [done |].
      enrolled_cases server d; observe Hdl; split_and!; auto.
Qed.

(** C3, as the code has it: [handleConnection] has no [try].  It either
    returns, and then it has called [setTerminated()] exactly once, as
    its last call (only the destructor of the [ConnectionInfo] parameter
    follows); or it ends with an exception that the [OnConnection] hook,
    [connectToSocket] or [run()] threw, and then [setTerminated()] has not
    been called.  It returns on each of the four named paths: no hook
    registered, no handler registered by the hook, handshake failure, and
    [run()] returning.  And no exception is caught: when the
    [OnConnection] hook throws, when [connectToSocket] throws on a
    connection that got its handler, and when the message loop of such a
    connection ends with an exception (of a per-message handler or of
    [run()] itself), that exception leaves [handleConnection] and
    [setTerminated()] is not called. *)
Theorem handleConnection_returns_terminated_or_throws env server socket id ci :
  let r := connection env server socket id ci in
  let h := env_make_shared env in
  (((completion r = Normal () ∧
     count is_setTerminated (events (trace r)) = 1 ∧
     isTerminated (connectionState (final r)) = true ∧
     (after is_setTerminated (events (trace r)) = [] ∨
      after is_setTerminated (events (trace r)) = [EvDestroyConnectionInfo ci]))
    ∨
    (∃ e, completion r = Thrown e ∧
          count is_setTerminated (events (trace r)) = 0 ∧
          isTerminated (connectionState (final r)) = false ∧
          ((∃ cb, _onConnectionCallback server = Some cb ∧ cb h id ci = inr e) ∨
           env_connectToSocket env = inr e ∨
           (count is_run (events (trace r)) = 1 ∧
            count is_runReturned (events (trace r)) = 0))))
   ∧
   ((_onConnectionCallback server = None ∧ _onClientMessageCallback server = None) ∨
    EvIsOnMessageCallbackRegistered h false ∈ events (trace r) ∨
    (∃ status, EvConnectReturned h status ∈ events (trace r) ∧ success status = false) ∨
    EvRunReturned h ∈ events (trace r) →
    completion r = Normal ()))
  ∧
  (∀ cb e, _onConnectionCallback server = Some cb → cb h id ci = inr e →
           completion r = Thrown e ∧
           count is_setTerminated (events (trace r)) = 0 ∧
           isTerminated (connectionState (final r)) = false) ∧
  (∀ d e, dispatched env server id ci d → env_connectToSocket env = inr e →
          completion r = Thrown e ∧
          count is_setTerminated (events (trace r)) = 0 ∧
          isTerminated (connectionState (final r)) = false) ∧
  (∀ d status e,
     dispatched env server id ci d →
     env_connectToSocket env = inl status → success status = true →
     run_exception env (handler_of server id ci h d) = Some e →
     completion r = Thrown e ∧
     count is_setTerminated (events (trace r)) = 0 ∧
     isTerminated (connectionState (final r)) = false).
Proof.
  intros r h. subst r h.
  split; [exact (handleConnection_ends_terminated_or_thrown env server socket id ci) |].
  split_and!.
  - intros cb e Hcb He.
    pose proof (hook_exception_completion env server socket id ci cb e Hcb He) as Hc.
    split; [exact Hc | by apply thrown_is_not_terminated with e].
  - intros d e Hd Hcts.
    assert (completion (connection env server socket id ci) = Thrown e) as Hc.
    { rewrite (enrolled_completion env server socket id ci d Hd).
      unfold expected_completion. by rewrite Hcts. }
    split; [exact Hc | by apply thrown_is_not_terminated with e].
  - intros d status e Hd Hcts Hok Hrun.
    assert (completion (connection env server socket id ci) = Thrown e) as Hc.
    { rewrite (enrolled_completion env server socket id ci d Hd).
      unfold expected_completion. by rewrite Hcts, Hok, Hrun. }
    split; [exact Hc | by apply thrown_is_not_terminated with e].
Qed.

Lemma handleConnection_returns_terminated_or_throws_witness :
  completion (connection env_handshake_throws server_onClientMessage 4 "c1" ci0)
    = Thrown (app_exception "io") ∧
  completion (connection env_run_throws server_onClientMessage 4 "c1" ci0)
    = Thrown (app_exception "reset") ∧
  completion (connection env_happy server_rejects 4 "c1" ci0)
    = Thrown (app_exception "bad") ∧
  count is_setTerminated (events (trace (connection env_happy server_rejects 4 "c1" ci0))) = 0.
Proof.
  destruct (handleConnection_returns_terminated_or_throws
              env_handshake_throws server_onClientMessage 4 "c1" ci0)
    as (_ & _ & Hhandshake & _).
  destruct (Hhandshake ViaOnClientMessage (app_exception "io")
              (dispatched_onClientMessage env_handshake_throws server_onClientMessage "c1" ci0
                 hook_echo eq_refl eq_refl) eq_refl)
    as (H1 & _).
  destruct (handleConnection_returns_terminated_or_throws
              env_run_throws server_onClientMessage 4 "c1" ci0) as (_ & _ & _ & Hrun).
  destruct (Hrun ViaOnClientMessage handshake_ok (app_exception "reset")
              (dispatched_onClientMessage env_run_throws server_onClientMessage "c1" ci0
                 hook_echo eq_refl eq_refl)
              eq_refl eq_refl eq_refl) as (H2 & _).
  destruct (handleConnection_returns_terminated_or_throws
              env_happy server_rejects 4 "c1" ci0) as (_ & _ & _ & Hhook).
  destruct (Hhook ViaOnClientMessage handshake_ok (app_exception "bad")
              (dispatched_onClientMessage env_happy server_rejects "c1" ci0
                 hook_rejects eq_refl eq_refl)
              eq_refl eq_refl eq_refl) as (H3 & H4 & _).
  split; [exact H1 |]. split; [exact H2 |]. split; [exact H3 | exact H4].
Defined.

(** C3, as the specification states it, fails: an [OnConnection] hook
    that throws takes the exception out of [handleConnection], and
    [setTerminated()] is not reached. *)
Lemma hook_exception_escapes_handleConnection :
  completion (connection env_happy server_throws 4 "c1" ci0)
    = Thrown (app_exception "boom") ∧
  count is_setTerminated (events (trace (connection env_happy server_throws 4 "c1" ci0))) = 0 ∧
  isTerminated (connectionState (final (connection env_happy server_throws 4 "c1" ci0)))
    = false.
Proof. vm_compute. done. Qed.

(** C4: when both hooks are set, the [OnConnection] hook is called (it is
    the third call of the handler, after the thread is named and the
    session allocated), and the [OnClientMessage] hook is not: the
    closure around it is never registered on the session and the hook is
    never invoked, whatever the [OnConnection] hook does. *)
Theorem onConnection_wins_over_onClientMessage env server socket id ci cb f :
  let r := connection env server socket id ci in
  _onConnectionCallback server = Some cb →
  _onClientMessageCallback server = Some f →
  events (trace r) !! 2 = Some (EvOnConnection (env_make_shared env) id ci) ∧
  count is_onConnection (events (trace r)) = 1 ∧
  count is_register_lambda (events (trace r)) = 0 ∧
  count is_onClientMessage (events (trace r)) = 0.
Proof.
  intros r Hcb Hf. subst r. on_path env server socket id ci.
  destruct p as [|e| |d s].
  - destruct Htakes as [Hoc _]. congruence.
  - simpl. auto.
  - simpl. auto.
  - destruct Htakes as [Hd Hs]. destruct d as [g|]; [| destruct Hd as [Hoc _]; congruence].
    destruct s as [e|st|st dl e|st dl]; cbn [served] in Hs;
      [| | destruct Hs as (_ & _ & Hdl & _) ..];
      unfold_path; destruct (_enablePong server); erase_cases; observe I;
      rewrite ?(count_app_callbacks _ _ _ _ _ _ (λ _ _, eq_refl) Hdl); auto.
Qed.

Lemma onConnection_wins_over_onClientMessage_witness :
  _onConnectionCallback server_both = Some hook_registers ∧
  _onClientMessageCallback server_both = Some hook_echo ∧
  count is_onClientMessage
    (events (trace (connection env_happy server_both 4 "c1" ci0))) = 0.
Proof.
  split; [reflexivity |]. split; [reflexivity |].
  apply (onConnection_wins_over_onClientMessage env_happy server_both 4 "c1" ci0
           hook_registers hook_echo eq_refl eq_refl).
Defined.

(** C5: in every connection the insert into the client set comes before
    any input or output on the session; the erase comes after [run()] has
    returned or the handshake has failed, and after the per-message
    callback has been set to null; so the callback slot is empty at the
    moment the erase executes.  Both happen with the mutex held, and a
    handler that returns after an insert has erased. *)
Theorem enrolment_brackets_the_session env server socket id ci :
  let r := connection env server socket id ci in
  precedes (λ e, is_insert e = true) (λ e, is_session_io e = true) (events (trace r)) ∧
  precedes (λ e, is_session_over e = true) (λ e, is_clear e = true) (events (trace r)) ∧
  precedes (λ e, is_clear e = true) (λ e, is_erase e = true) (events (trace r)) ∧
  precedes (λ e, is_session_over e = true) (λ e, is_erase e = true) (events (trace r)) ∧
  precedes (λ e, is_insert e = true) (λ e, is_erase e = true) (events (trace r)) ∧
  Forall (λ o, is_erase (event o) = true → snap_callback (seen o) = None) (trace r) ∧
  Forall (λ o, is_insert (event o) || is_erase (event o) = true →
               snap_clientsMutex (seen o) = true) (trace r) ∧
  (count is_insert (events (trace r)) ≤ 1)%nat ∧
  (count is_erase (events (trace r)) ≤ count is_insert (events (trace r)))%nat ∧
  (completion r = Normal () →
   count is_erase (events (trace r)) = count is_insert (events (trace r))).
Proof.
  intros r. subst r. on_path env server socket id ci.
  assert (Forall (λ o, is_erase (event o) = true → snap_callback (seen o) = None)
                 (trace (connection env server socket id ci))) as Hnull.
  { eapply Forall_impl; [exact Hok |]. by intros o (_ & _ & H & _). }
  assert (Forall (λ o, is_insert (event o) || is_erase (event o) = true →
                       snap_clientsMutex (seen o) = true)
                 (trace (connection env server socket id ci))) as Hheld.
  { eapply Forall_impl; [exact Hok |]. by intros o (H & _). }
  split_and!; [apply guarded_precedes .. | exact Hnull | exact Hheld | | |].
  all: destruct p as [|e| |d s]; [by (simpl; auto) ..|].
  all: destruct Htakes as [Hd Hs].
  all: destruct s as [e|[[] hs es]|[[] hs es] dl e|[[] hs es] dl]; cbn [served] in Hs;
         [ | destruct Hs as [_ Hs]; discriminate Hs | | | destruct Hs as (_ & Hs & _); discriminate Hs
           | | destruct Hs as (_ & Hs & _); discriminate Hs ];
         [ | | destruct Hs as (_ & _ & Hdl & _) ..].
  all: enrolled_cases server d; observe Hdl; first [reflexivity | lia | done].
Qed.

(** ** [stop] *)

(** The loop of lines 46-49 over a list of clients: one [close()] per
    element, in order, whatever the other threads do to the live set
    meanwhile; nothing but [_clients] changes. *)
Lemma close_loop env l m t :
  ∃ c', for_each l (WebSocket_close env) (m, t) =
          (Normal (),
           (set_this (set_clients c') m,
            reverse ((λ ws, mkObs (EvClose ws) (snapshot m)) <$> l) ++ t)).
Proof.
  revert m t. induction l as [|ws l IH]; intros m t.
  - exists (_clients (this m)). simpl. by destruct m as [[] ? ? ? ?].
  - destruct (IH (set_this (λ s, set_clients
                      (env_others env (EvClose ws) (_clients s)) s) m)
                 (mkObs (EvClose ws) (snapshot m) :: t)) as [c' E].
    exists c'. simpl. unfold bind at 1. simpl. rewrite E.
    rewrite reverse_cons, <- app_assoc. by destruct m as [[] ? ? ? ?].
Qed.

(** C6: [stop()] makes its calls in three steps, in this order: it stops
    accepting; it copies the client set, under the mutex, and calls
    [close()] once on every session of the copy, in the order of the set,
    with the mutex released, whatever becomes of the live set meanwhile;
    and it calls the base class's [stop()]. *)
Theorem stop_closes_a_snapshot_in_three_steps env m :
  let r := stop env (m, []) in
  let copy := _clients (this m) in
  completion r = Normal () ∧
  events (trace r) =
    [EvStopAcceptingConnections] ++
    [EvLock; EvCopyClients copy; EvUnlock] ++ (EvClose <$> in_order copy) ++
    [EvSocketServerStop] ∧
  Forall (λ o, is_copy (event o) = true → snap_clientsMutex (seen o) = true) (trace r) ∧
  Forall (λ o, is_close (event o) = true → snap_clientsMutex (seen o) = false) (trace r) ∧
  (∀ ws, ws ∈ in_order copy ↔ ws ∈ copy) ∧
  NoDup (in_order copy) ∧
  Sorted Nat.le (in_order copy).
Proof.
  intros r copy. subst r copy.
  destruct m as [srv ws cs oci mx]. destruct srv as [b to pong d oc om cl].
  cbn [this _clients].
  remember (stop env _) as r eqn:Er.
  unfold stop, function_body, bind, stopAcceptingConnections, getClients, lock_guard,
    finally, bind, emit, modify, gets, ret in Er.
  cbn -[for_each in_order WebSocket_close] in Er.
  match type of Er with
  | context [for_each ?l ?f (?m, ?t)] =>
      let E := fresh "E" in
      destruct (close_loop env l m t) as [c' E];
      change (for_each l f (m, t)) with (for_each l (WebSocket_close env) (m, t)) in Er;
      rewrite E in Er; clear E
  end.
  cbn -[in_order reverse] in Er. subst r.
  split; [reflexivity |]. split.
  { unfold trace. cbn [fst snd]. rewrite events_reverse. simpl.
    rewrite chronological_app, reverse_involutive. simpl.
    unfold events. rewrite <- list_fmap_compose. reflexivity. }
  split_and!.
  - unfold trace. cbn [fst snd]. apply Forall_reverse.
    apply Forall_cons_2; [by simpl |]. apply Forall_app_2.
    + apply Forall_reverse, Forall_fmap, Forall_true. by intros ?.
    + repeat constructor; by simpl.
  - unfold trace. cbn [fst snd]. apply Forall_reverse.
    apply Forall_cons_2; [by simpl |]. apply Forall_app_2.
    + apply Forall_reverse, Forall_fmap, Forall_true. by intros ?.
    + repeat constructor; by simpl.
  - intros x. unfold in_order. rewrite merge_sort_Permutation. apply elem_of_elements.
  - unfold in_order. rewrite merge_sort_Permutation. apply NoDup_elements.
  - apply Sorted_merge_sort. intros x y. unfold Nat.le. lia.
Qed.

(** C7: a connection for which no hook is registered, or for which the
    session reports no per-message handler after the [OnConnection] hook
    has returned, is abandoned: the handler returns, having logged
    exactly two lines (the explanation and the hint) and called
    [setTerminated()] once; the client set is as it was, the session was
    neither inserted nor erased, and there was no input or output on the
    session. *)
Theorem misconfigured_connection_is_abandoned env server socket id ci :
  let r := connection env server socket id ci in
  (_onConnectionCallback server = None ∧ _onClientMessageCallback server = None) ∨
  EvIsOnMessageCallbackRegistered (env_make_shared env) false ∈ events (trace r) →
  completion r = Normal () ∧
  (logged (events (trace r)) =
     ["WebSocketServer Application developer error: No server callback is registerered.";
      "Missing call to setOnConnectionCallback or setOnClientMessageCallback."] ∨
   logged (events (trace r)) =
     ["WebSocketServer Application developer error: Server callback improperly registerered.";
      "Missing call to setOnMessageCallback inside setOnConnectionCallback."]) ∧
  count is_setTerminated (events (trace r)) = 1 ∧
  isTerminated (connectionState (final r)) = true ∧
  _clients (this (final r)) = _clients server ∧
  count is_insert (events (trace r)) = 0 ∧
  count is_erase (events (trace r)) = 0 ∧
  count is_session_io (events (trace r)) = 0.
Proof.
  intros r H. subst r. on_path env server socket id ci.
  destruct p as [|e| |d s].
  - simpl. split_and!; auto.
  - exfalso. destruct H as [[H _]|H].
    + destruct Htakes as (cb & Hcb & _). congruence.
    + apply (elem_of_count is_unregistered) in H; [simpl in H; lia | done].
  - simpl. split_and!; auto.
  - exfalso. destruct Htakes as [Hd Hs]. destruct H as [[H1 H2]|H].
    + destruct d; simpl in Hd.
      * destruct Hd as (cb & Hcb & _). congruence.
      * destruct Hd as [_ [f Hf]]. congruence.
    + apply (elem_of_count is_unregistered) in H; [| done]. revert H.
      destruct s as [e|st|st dl e|st dl]; cbn [served] in Hs;
        [| | destruct Hs as (_ & _ & Hdl & _) ..];
        enrolled_cases server d; observe Hdl; lia.
Qed.

Lemma misconfigured_connection_is_abandoned_witness :
  EvIsOnMessageCallbackRegistered 7 false
    ∈ events (trace (connection env_happy server_forgets 4 "c1" ci0)) ∧
  logged (events (trace (connection env_happy server_forgets 4 "c1" ci0))) =
    ["WebSocketServer Application developer error: Server callback improperly registerered.";
     "Missing call to setOnMessageCallback inside setOnConnectionCallback."] ∧
  count is_session_io (events (trace (connection env_happy server_forgets 4 "c1" ci0))) = 0.
Proof.
  assert (EvIsOnMessageCallbackRegistered 7 false
            ∈ events (trace (connection env_happy server_forgets 4 "c1" ci0))) as H.
  { vm_compute. repeat constructor. }
  split; [exact H |].
  destruct (misconfigured_connection_is_abandoned env_happy server_forgets 4 "c1" ci0
              (or_intror H)) as (_ & Hlog & _ & _ & _ & _ & _ & Hio).
  split; [| exact Hio].
  destruct Hlog as [Hlog|Hlog]; [| exact Hlog].
  vm_compute in Hlog. discriminate Hlog.
Defined.

(** C8: when the erase removes a number of entries other than 1, the
    handler logs "Cannot delete client", once, and goes on to release the
    mutex and call [setTerminated()]; when it removes exactly 1, it logs
    no such line.  Either way the handler returns. *)
Theorem failed_erase_is_logged_and_drain_continues env server socket id ci n :
  let r := connection env server socket id ci in
  EvErase (env_make_shared env) n ∈ events (trace r) →
  completion r = Normal () ∧
  (n ≠ 1 →
   count (is_log "Cannot delete client") (events (trace r)) = 1 ∧
   (after is_erase (events (trace r)) =
      [EvLogError "Cannot delete client"; EvUnlock; EvSetTerminated id] ∨
    after is_erase (events (trace r)) =
      [EvLogError "Cannot delete client"; EvUnlock; EvSetTerminated id;
       EvDestroyConnectionInfo ci])) ∧
  (n = 1 →
   count (is_log "Cannot delete client") (events (trace r)) = 0 ∧
   (after is_erase (events (trace r)) = [EvUnlock; EvSetTerminated id] ∨
    after is_erase (events (trace r)) =
      [EvUnlock; EvSetTerminated id; EvDestroyConnectionInfo ci])).
Proof.
  intros r Hin. subst r. on_path env server socket id ci.
  apply (elem_of_project erased _ n) in Hin; [| done].
  destruct p as [|e| |d s]; try (by apply elem_of_nil in Hin).
  destruct Htakes as [Hd Hs]. revert Hin.
  destruct s as [e|st|st dl e|st dl]; cbn [served] in Hs;
    [| | destruct Hs as (_ & _ & Hdl & _) ..].
  all: enrolled_cases server d; unfold handshake_error; observe Hdl.
  all: rewrite ?list_elem_of_singleton; first [by intros ?%elem_of_nil | intros ->].
  all: split_and!; try done; intros _; split; auto.
Qed.

Lemma failed_erase_is_logged_and_drain_continues_witness :
  EvErase 7 0 ∈ events (trace (connection env_meddled server_onClientMessage 4 "c1" ci0)) ∧
  count (is_log "Cannot delete client")
        (events (trace (connection env_meddled server_onClientMessage 4 "c1" ci0))) = 1 ∧
  after is_erase (events (trace (connection env_meddled server_onClientMessage 4 "c1" ci0)))
    = [EvLogError "Cannot delete client"; EvUnlock; EvSetTerminated "c1";
       EvDestroyConnectionInfo ci0].
Proof.
  assert (EvErase 7 0
            ∈ events (trace (connection env_meddled server_onClientMessage 4 "c1" ci0)))
    as H.
  { vm_compute. repeat constructor. }
  split; [exact H |].
  destruct (failed_erase_is_logged_and_drain_continues
              env_meddled server_onClientMessage 4 "c1" ci0 0 H) as (_ & Hne & _).
  destruct Hne as [Hlog Hafter]; [discriminate |].
  split; [exact Hlog |].
  destruct Hafter as [Hafter|Hafter]; [| exact Hafter].
  vm_compute in Hafter. discriminate Hafter.
Defined.

(** C9, as the code has it: on the [OnClientMessage] path the handler
    registers a closure that holds a copy of the [connectionState]
    pointer and _references_ to the session and to the [ConnectionInfo]
    that the handler's own parameter owns.  The reference stays valid as
    long as the closure is registered: at every event at which the
    closure sits in the callback slot the handler still owns the
    [ConnectionInfo]; every invocation of the hook gets that very
    [ConnectionInfo]; no dangling reference is used; and a handler that
    returns has cleared the slot before the [ConnectionInfo] is
    destroyed. *)
Theorem closure_refers_to_live_connectionInfo env server socket id ci f :
  let r := connection env server socket id ci in
  _onConnectionCallback server = None →
  _onClientMessageCallback server = Some f →
  omap registered_lambda (events (trace r)) =
    [{| lam_ws := ByReference; lam_connectionState := ByCopy id; lam_ci := ByReference |}] ∧
  Forall (λ o, ∀ c, snap_callback (seen o) = Some (ServerLambda c) →
                    snap_connectionInfo (seen o) = Some ci) (trace r) ∧
  Forall (λ x, ∃ msg, x = (id, ci, env_make_shared env, msg))
         (omap hook_call (events (trace r))) ∧
  completion r ≠ Undefined ∧
  (completion r = Normal () →
   onMessageCallback (webSocket (final r)) = None ∧
   count is_destroy (events (trace r)) = 1 ∧
   precedes (λ e, is_clear e = true) (λ e, is_destroy e = true) (events (trace r))).
Proof.
  intros r Hoc Hom. subst r. on_path env server socket id ci.
  assert (Forall (λ o, ∀ c, snap_callback (seen o) = Some (ServerLambda c) →
                            snap_connectionInfo (seen o) = Some ci)
                 (trace (connection env server socket id ci))) as Hlive.
  { eapply Forall_impl; [exact Hok |]. by intros o (_ & _ & _ & H). }
  destruct p as [|e| |d s].
  - destruct Htakes as [_ H]. congruence.
  - destruct Htakes as (cb & H & _). congruence.
  - destruct Htakes as (cb & H & _). congruence.
  - destruct Htakes as [Hd Hs]. destruct d as [g|]; [destruct Hd as (cb & H & _); congruence |].
    split_and!; [| exact Hlive | | |].
    + destruct s as [e|st|st dl e|st dl]; cbn [served] in Hs;
        [| | destruct Hs as (_ & _ & Hdl & _) ..];
        unfold_path; destruct (_enablePong server); erase_cases; observe Hdl; reflexivity.
    + destruct s as [e|st|st dl e|st dl]; cbn [served] in Hs;
        [| | destruct Hs as (_ & _ & Hdl & _) ..];
        unfold_path; destruct (_enablePong server); erase_cases; observe Hdl;
        rewrite ?app_nil_r;
        first [constructor | by apply hook_calls_of_deliveries].
    + by destruct s.
    + intros Hnormal. destruct s as [e|st|st dl e|st dl]; try discriminate Hnormal;
        cbn [served] in Hs; [| destruct Hs as (_ & _ & Hdl & _)].
      all: split; [reflexivity |]; split; [| apply guarded_precedes].
      all: unfold_path; destruct (_enablePong server); erase_cases; observe Hdl; reflexivity.
Qed.

Lemma closure_refers_to_live_connectionInfo_witness :
  _onConnectionCallback server_onClientMessage = None ∧
  _onClientMessageCallback server_onClientMessage = Some hook_echo ∧
  omap hook_call (events (trace (connection env_happy server_onClientMessage 4 "c1" ci0)))
    = [("c1", ci0, 7, "a"); ("c1", ci0, 7, "b"); ("c1", ci0, 7, "c")] ∧
  Forall (λ o, ∀ c, snap_callback (seen o) = Some (ServerLambda c) →
                    snap_connectionInfo (seen o) = Some ci0)
         (trace (connection env_happy server_onClientMessage 4 "c1" ci0)).
Proof.
  split; [reflexivity |]. split; [reflexivity |]. split; [reflexivity |].
  apply (closure_refers_to_live_connectionInfo env_happy server_onClientMessage 4 "c1" ci0
           hook_echo eq_refl eq_refl).
Defined.

(** C9, as the specification states it, fails: the closure does not
    hold the [ConnectionInfo] by value; it holds a reference
    ([&ci = *connectionInfo.get()]). *)
Lemma connectionInfo_is_captured_by_reference :
  ∃ c, omap registered_lambda
            (events (trace (connection env_happy server_onClientMessage 4 "c1" ci0))) = [c] ∧
       lam_ci c = ByReference ∧
       ∀ ci, lam_ci c ≠ ByCopy ci.
Proof.
  exists {| lam_ws := ByReference; lam_connectionState := ByCopy "c1";
            lam_ci := ByReference |}.
  split; [reflexivity |]. split; [reflexivity |]. intros ci H. discriminate H.
Qed.

(** The option setters leave the handshake timeout alone. *)
Lemma call_setters_handshakeTimeoutSecs s l :
  _handshakeTimeoutSecs (call_setters s l) = _handshakeTimeoutSecs s.
Proof.
  revert s. induction l as [|c l IH]; intros s; [done |].
  unfold call_setters in *. simpl. rewrite IH. by destruct c.
Qed.

(** C10: the constructor stores [handshakeTimeoutSecs] as it is given
    (zero and negative values too), no setter changes it, and every call
    of [connectToSocket] gets it as the timeout, together with the
    accepted socket; an enrolled connection makes exactly one such
    call, and so does every connection that got its per-message handler
    (from the [OnConnection] hook, or the server's closure around the
    [OnClientMessage] hook). *)
Theorem handshake_timeout_is_passed_unchanged
    port host backlog maxConnections handshakeTimeoutSecs addressFamily
    setters clients env socket id ci :
  let constructed :=
    WebSocketServer_new port host backlog maxConnections handshakeTimeoutSecs addressFamily in
  let server := set_clients clients (call_setters constructed setters) in
  let r := connection env server socket id ci in
  _handshakeTimeoutSecs constructed = handshakeTimeoutSecs ∧
  _handshakeTimeoutSecs server = handshakeTimeoutSecs ∧
  Forall (λ x, x = (env_make_shared env, socket, handshakeTimeoutSecs))
         (omap handshake_call (events (trace r))) ∧
  (count is_insert (events (trace r)) = 1 →
   omap handshake_call (events (trace r)) =
     [(env_make_shared env, socket, handshakeTimeoutSecs)]) ∧
  (∀ d, dispatched env server id ci d →
        omap handshake_call (events (trace r)) =
          [(env_make_shared env, socket, handshakeTimeoutSecs)]).
Proof.
  intros constructed server r.
  assert (_handshakeTimeoutSecs server = handshakeTimeoutSecs) as Ht.
  { subst server constructed. simpl. by rewrite call_setters_handshakeTimeoutSecs. }
  split; [reflexivity |]. split; [exact Ht |].
  clearbody server. clear constructed. subst r. on_path env server socket id ci.
  assert (∀ d s, p = Enrolled d s →
                 omap handshake_call (path_events env server socket id ci p) =
                   [(env_make_shared env, socket, handshakeTimeoutSecs)]) as Henrolled.
  { intros d s ->. destruct Htakes as [Hd Hs].
    destruct s as [e|st|st dl e|st dl]; cbn [served] in Hs;
      [| | destruct Hs as (_ & _ & Hdl & _) ..].
    all: enrolled_cases server d; observe Hdl; by rewrite Ht. }
  split_and!.
  - destruct p as [|e| |d s]; [by constructor ..|].
    rewrite (Henrolled d s eq_refl). by repeat constructor.
  - destruct p as [|e| |d s]; [discriminate ..|]. intros _. exact (Henrolled d s eq_refl).
  - intros d Hd. destruct (dispatched_enrolled env server id ci d p Hd Htakes) as [s ->].
    exact (Henrolled d s eq_refl).
Qed.

Lemma handshake_timeout_is_passed_unchanged_witness :
  omap handshake_call
    (events (trace (connection env_happy
       (set_clients ∅
          (call_setters (WebSocketServer_new 8008 "127.0.0.1" 5 32 0 2)
             [CallDisablePong; CallSetOnClientMessageCallback (Some hook_echo)]))
       4 "c1" ci0))) = [(7, 4, 0%Z)].
Proof.
  destruct (handshake_timeout_is_passed_unchanged 8008 "127.0.0.1" 5 32 0 2
              [CallDisablePong; CallSetOnClientMessageCallback (Some hook_echo)] ∅
              env_happy 4 "c1" ci0) as (_ & _ & _ & _ & Hcall).
  exact (Hcall ViaOnClientMessage
           (dispatched_onClientMessage env_happy
              (set_clients ∅
                 (call_setters (WebSocketServer_new 8008 "127.0.0.1" 5 32 0 2)
                    [CallDisablePong; CallSetOnClientMessageCallback (Some hook_echo)]))
              "c1" ci0 hook_echo eq_refl eq_refl)).
Defined.

(** * Further properties of the class

    The constructor, the setters, the destructor, [getClients] and
    [getConnectedClientsCount], and what [handleConnection] and [stop] do
    besides C1 to C10.

    ** Lemmas: the setters *)

Lemma call_setters_snoc s l c :
  call_setters s (l ++ [c]) = call_setter (call_setters s l) c.
Proof. unfold call_setters. by rewrite foldl_snoc. Qed.

(** Each setter writes its own member and no other. *)
Lemma call_setters_members s l :
  base (call_setters s l) = base s ∧
  _handshakeTimeoutSecs (call_setters s l) = _handshakeTimeoutSecs s ∧
  _clients (call_setters s l) = _clients s ∧
  _enablePong (call_setters s l) = default (_enablePong s) (last (omap pong_setting l)) ∧
  _enablePerMessageDeflate (call_setters s l) =
    _enablePerMessageDeflate s && negb (existsb is_disablePerMessageDeflate l) ∧
  _onConnectionCallback (call_setters s l) =
    default (_onConnectionCallback s) (last (omap onConnection_setting l)) ∧
  _onClientMessageCallback (call_setters s l) =
    default (_onClientMessageCallback s) (last (omap onClientMessage_setting l)).
Proof.
  induction l as [|c l IH] using rev_ind.
  - simpl. by rewrite andb_true_r.
  - destruct IH as (H1 & H2 & H3 & H4 & H5 & H6 & H7).
    rewrite call_setters_snoc, !omap_app, existsb_app.
    destruct c; simpl; rewrite ?app_nil_r, ?last_snoc, ?orb_false_r, ?orb_true_r; simpl;
      rewrite ?andb_false_r; split_and!; done.
Qed.

(** ** Lemmas: the mutex along [handleConnection] *)

Lemma delivered_discipline m h o :
  delivered m h o → clientsMutex m = false → served_discipline o.
Proof.
  intros [Hs He] Hmx. unfold served_discipline. rewrite Hs. simpl. rewrite Hmx.
  by destruct (event o).
Qed.

Ltac served_discipline_ok Hdl :=
  repeat first
    [ apply Forall_nil_2
    | apply Forall_cons_2; [split; reflexivity |]
    | apply Forall_app_2;
      [ eapply Forall_impl; [exact Hdl |];
        intros ? ?; eapply delivered_discipline; [eassumption | reflexivity] |] ].

Ltac conclude_discipline Hdl :=
  eexists; eexists; eexists;
  split; [ refine (f_equal2 pair eq_refl (f_equal2 pair eq_refl _)); frame |];
  split; [done |]; split; [done |]; split; [reflexivity |]; split; [reflexivity |];
  served_discipline_ok Hdl.

(** [serve] takes and releases the mutex around the erase, and nowhere
    else; it ends normally or with an exception. *)
Lemma serve_discipline env socket m t :
  clientsMutex m = false →
  (∀ c, onMessageCallback (webSocket m) = Some (ServerLambda c) →
        is_Some (connectionInfo m)) →
  ∃ c m' dt,
    serve env socket (env_make_shared env) (m, t) = (c, (m', dt ++ t)) ∧
    c ≠ Returned ∧ c ≠ Undefined ∧
    clientsMutex m' = false ∧
    connectionInfo m' = connectionInfo m ∧
    Forall served_discipline dt.
Proof.
  intros Hmx Hci.
  destruct m as [srv ws cs oci mx]. simpl in Hmx. subst mx.
  destruct srv as [b to pong d oc om cl]. destruct env as [h w0 cts inc rn oth].
  destruct ws as [slot ar pe de]. destruct cs as [id term].
  remember (serve _ _ _ _) as r eqn:Er. unfold serve in Er.
  destruct cts as [[[] hs es]|e].
  - destruct rn as [ex|]; eval_in Er; loop_in Er Hci; try erase_in Er; subst r.
    all: conclude_discipline Hdl.
  - eval_in Er; erase_in Er; subst r.
    all: conclude_discipline I.
  - eval_in Er. subst r. conclude_discipline I.
Qed.

(** Replace the call of [serve] in [H] by what [serve_discipline] says of
    it. *)
Ltac discipline_in H :=
  match type of H with
  | context [serve ?e ?sock ?h (?m, ?t)] =>
      let Hpre := fresh "Hpre" in
      assert (∀ c, onMessageCallback (webSocket m) = Some (ServerLambda c) →
                   is_Some (connectionInfo m)) as Hpre
        by (cbn [onMessageCallback webSocket connectionInfo]; intros;
            first [done | by eauto]);
      let c := fresh "c" in let m' := fresh "m'" in let dt := fresh "dt" in
      let E := fresh "E" in let HH := fresh "HH" in
      let Hret := fresh "Hret" in let Hund := fresh "Hund" in
      let Hoci := fresh "Hoci" in let Hmx := fresh "Hmx" in
      let Hok := fresh "Hok" in
      let srv' := fresh "srv'" in let ws' := fresh "ws'" in let cs' := fresh "cs'" in
      let oci' := fresh "oci'" in let mx' := fresh "mx'" in
      pose proof (serve_discipline e sock m t eq_refl Hpre) as HH;
      cbn [connectionInfo clientsMutex env_make_shared] in HH;
      destruct HH as (c & m' & dt & E & Hret & Hund & Hmx & Hoci & Hok);
      clear Hpre;
      rewrite E in H; clear E;
      destruct m' as [srv' ws' cs' oci' mx'];
      cbn [connectionInfo clientsMutex] in Hoci, Hmx;
      subst oci' mx';
      destruct c as [[]| | |]; [| done | | done]; eval_in H
  end.

Ltac trace_discipline Hok :=
  unfold trace; cbn [fst snd]; apply Forall_reverse;
  repeat first
    [ apply Forall_nil_2
    | apply Forall_cons_2; [split; [reflexivity | intros; first [done | by eauto]] |]
    | apply Forall_app_2;
      [ eapply Forall_impl; [exact Hok |];
        let H1 := fresh in let H2 := fresh in
        intros ? [H1 H2]; split; [exact H1 | by rewrite H2] |] ].

(** Every observation of a connection satisfies [discipline]. *)
Lemma connection_discipline env server socket id ci :
  Forall discipline (trace (connection env server socket id ci)).
Proof.
  destruct server as [b to pong d oc om cl]. destruct env as [h w0 cts inc rn oth].
  remember (connection _ _ _ _ _) as r eqn:Er.
  destruct oc as [cb|].
  - eval_in Er. remember (cb h id ci) as res eqn:Ehook in Er.
    destruct res as [[|[g|]]|e].
    + eval_in Er. subst r. trace_discipline I.
    + destruct pong; eval_in Er; discipline_in Er; subst r; trace_discipline Hok.
    + eval_in Er. subst r. trace_discipline I.
    + eval_in Er. subst r. trace_discipline I.
  - destruct om as [f|].
    + destruct pong; eval_in Er; discipline_in Er; subst r; trace_discipline Hok.
    + eval_in Er. subst r. trace_discipline I.
Qed.

Lemma after_only_deliveries env id ci d dl p :
  Forall (delivery_of env id ci d) dl →
  (∀ e, is_delivery e = true → p e = false) → after p (events dl) = [].
Proof.
  intros Hdl Hp. rewrite <- (app_nil_r (events dl)).
  by rewrite (after_deliveries _ _ _ _ _ Hdl).
Qed.

Lemma sessions_of_deliveries env id ci d dl :
  Forall (delivery_of env id ci d) dl →
  Forall (λ ws, ws = env_make_shared env) (omap session_of (events dl)).
Proof.
  induction 1 as [|o l [_ [msg He]] _ IH]; simpl; [constructor |].
  rewrite He. destruct d; simpl; by constructor.
Qed.

(** ** Lemmas: [getClients], [getConnectedClientsCount] and [stop] *)

Lemma getConnectedClientsCount_run m t :
  getConnectedClientsCount (m, t) =
    (Normal (size (_clients (this m))),
     (set_clientsMutex false m,
      mkObs EvUnlock (snapshot (set_clientsMutex true m)) :: mkObs EvLock (snapshot m) :: t)).
Proof. by destruct m. Qed.

Lemma getClients_run m t :
  getClients (m, t) =
    (Normal (_clients (this m)),
     (set_clientsMutex false m,
      mkObs EvUnlock (snapshot (set_clientsMutex true m))
      :: mkObs (EvCopyClients (_clients (this m))) (snapshot (set_clientsMutex true m))
      :: mkObs EvLock (snapshot m) :: t)).
Proof. by destruct m. Qed.

Lemma length_in_order (c : gset nat) : length (in_order c) = size c.
Proof. unfold in_order. by rewrite merge_sort_Permutation. Qed.

Lemma elem_of_in_order ws (c : gset nat) : ws ∈ in_order c ↔ ws ∈ c.
Proof. unfold in_order. rewrite merge_sort_Permutation. apply elem_of_elements. Qed.

Lemma NoDup_in_order (c : gset nat) : NoDup (in_order c).
Proof. unfold in_order. rewrite merge_sort_Permutation. apply NoDup_elements. Qed.

Lemma count_is_close l : count is_close (EvClose <$> l) = length l.
Proof. induction l as [|ws l IH]; simpl; [done | f_equal; exact IH]. Qed.

Lemma count_close_events p l :
  (∀ ws, p (EvClose ws) = false) → count p (EvClose <$> l) = 0.
Proof. intros Hp. induction l as [|ws l IH]; simpl; [done |]. by rewrite Hp. Qed.

Lemma count_closes_absent ws l : ws ∉ l → count (closes ws) (EvClose <$> l) = 0.
Proof.
  induction l as [|x l IH]; intros Hn; [done |].
  apply not_elem_of_cons in Hn as [Hne Hn]. rewrite fmap_cons. cbn [count closes].
  rewrite (IH Hn). by rewrite (proj2 (Nat.eqb_neq x ws)) by congruence.
Qed.

Lemma count_closes ws l :
  NoDup l → count (closes ws) (EvClose <$> l) = if decide (ws ∈ l) then 1 else 0.
Proof.
  induction 1 as [|x l Hx Hl IH].
  - rewrite decide_False; [done | apply not_elem_of_nil].
  - rewrite fmap_cons. cbn [count closes]. destruct (decide (x = ws)) as [->|Hne].
    + rewrite Nat.eqb_refl, count_closes_absent by done.
      rewrite decide_True; [done | by left].
    + rewrite (proj2 (Nat.eqb_neq x ws)) by done. rewrite IH. simpl.
      destruct (decide (ws ∈ l)) as [Hin|Hin].
      * rewrite decide_True; [done | by right].
      * rewrite decide_False; [done |]. rewrite elem_of_cons. intros [->|]; done.
Qed.

Lemma count_closes_in_order ws (c : gset nat) :
  count (closes ws) (EvClose <$> in_order c) = if decide (ws ∈ c) then 1 else 0.
Proof.
  rewrite count_closes by apply NoDup_in_order.
  destruct (decide (ws ∈ c)) as [Hin|Hin].
  - rewrite decide_True; [done | by apply elem_of_in_order].
  - rewrite decide_False; [done | by rewrite elem_of_in_order].
Qed.

Lemma count_stop_events p c :
  count p (stop_events c) =
    count p [EvStopAcceptingConnections; EvLock; EvCopyClients c; EvUnlock] +
    count p (EvClose <$> in_order c) + count p [EvSocketServerStop].
Proof. unfold stop_events. rewrite !count_app. lia. Qed.

Lemma clients_after_stop_alone env (c : gset nat) :
  (∀ ev live, env_others env ev live = live) → clients_after_stop env c = c.
Proof.
  intros Halone. unfold clients_after_stop. rewrite Halone.
  generalize (in_order c). intros l. revert c.
  induction l as [|ws l IH]; intros c; simpl; [done |]. by rewrite Halone.
Qed.

(** The loop of lines 46-49 again, with the client set it leaves. *)
Lemma close_loop_clients env l m t :
  for_each l (WebSocket_close env) (m, t) =
    (Normal (),
     (set_this (set_clients
                  (foldl (λ live ws, env_others env (EvClose ws) live) (_clients (this m)) l)) m,
      reverse ((λ ws, mkObs (EvClose ws) (snapshot m)) <$> l) ++ t)).
Proof.
  revert m t. induction l as [|ws l IH]; intros m t.
  - simpl. by destruct m as [[] ? ? ? ?].
  - simpl. unfold bind at 1. simpl.
    rewrite (IH (set_this (λ s, set_clients (env_others env (EvClose ws) (_clients s)) s) m)
                (mkObs (EvClose ws) (snapshot m) :: t)).
    rewrite reverse_cons, <- app_assoc. by destruct m as [[] ? ? ? ?].
Qed.

(** [stop()] from any memory and after any trace: it returns, it has made
    the calls [stop_events], and it leaves the memory as it found it but
    for what the other threads did to the client set. *)
Lemma stop_run env m t :
  ∃ dt, stop env (m, t) =
          (Normal (),
           (set_clientsMutex false
              (set_this (set_clients (clients_after_stop env (_clients (this m)))) m),
            dt ++ t)) ∧
        events (reverse dt) = stop_events (_clients (this m)).
Proof.
  destruct m as [srv ws cs oci mx]. destruct srv as [b to pong d oc om cl].
  cbn [this _clients].
  remember (stop env _) as r eqn:Er.
  unfold stop, function_body, bind, stopAcceptingConnections, getClients, lock_guard,
    finally, bind, emit, modify, gets, ret in Er.
  cbn -[for_each in_order WebSocket_close] in Er.
  match type of Er with
  | context [for_each ?l ?f (?m, ?t)] =>
      change (for_each l f (m, t)) with (for_each l (WebSocket_close env) (m, t)) in Er;
      rewrite (close_loop_clients env l m t) in Er
  end.
  cbn -[in_order reverse foldl] in Er. subst r.
  eexists. split.
  - refine (f_equal2 pair eq_refl (f_equal2 pair eq_refl _)). frame.
  - rewrite events_reverse. simpl.
    rewrite chronological_app, reverse_involutive. simpl.
    unfold events, stop_events. rewrite <- list_fmap_compose. reflexivity.
Qed.

(** ** The constructor and the setters *)

(** X1: the configuration of a server is what the constructor and the
    last call of each setter wrote.  After construction and any sequence
    of calls of the five setters, the pong flag and the two hooks are
    what the last call that concerns them set (for the pong flag,
    [kDefaultEnablePong] when there was none; for a hook, empty when
    there was none), permessage-deflate is enabled exactly when
    [disablePerMessageDeflate()] was never called (nothing enables it
    again), and the arguments of the base class, the handshake timeout and
    the empty client set are untouched. *)
Theorem configuration_is_what_the_last_setters_wrote
    port host backlog maxConnections handshakeTimeoutSecs addressFamily setters :
  let server :=
    call_setters
      (WebSocketServer_new port host backlog maxConnections handshakeTimeoutSecs addressFamily)
      setters in
  base server = mkSocketServer port host backlog maxConnections addressFamily ∧
  _handshakeTimeoutSecs server = handshakeTimeoutSecs ∧
  _clients server = ∅ ∧
  _enablePong server = default kDefaultEnablePong (last (omap pong_setting setters)) ∧
  _enablePerMessageDeflate server = negb (existsb is_disablePerMessageDeflate setters) ∧
  _onConnectionCallback server = default None (last (omap onConnection_setting setters)) ∧
  _onClientMessageCallback server =
    default None (last (omap onClientMessage_setting setters)).
Proof.
  intros server. subst server.
  destruct (call_setters_members
              (WebSocketServer_new port host backlog maxConnections handshakeTimeoutSecs
                 addressFamily) setters) as (H1 & H2 & H3 & H4 & H5 & H6 & H7).
  rewrite H1, H2, H3, H4, H5, H6, H7. done.
Qed.

(** X2: the pong setting reaches the session.  On a server configured by
    any sequence of setter calls, a connection that is enrolled makes
    exactly one pong call on its session, [enablePong()] when the last of
    [enablePong()]/[disablePong()] on the server was [enablePong()] or
    there was none, [disablePong()] otherwise, and the session is left
    with that setting; a connection that is not enrolled makes no pong
    call and its session keeps the engine's default. *)
Theorem pong_setting_reaches_the_session
    port host backlog maxConnections handshakeTimeoutSecs addressFamily
    setters clients env socket id ci :
  let constructed :=
    WebSocketServer_new port host backlog maxConnections handshakeTimeoutSecs addressFamily in
  let server := set_clients clients (call_setters constructed setters) in
  let r := connection env server socket id ci in
  let pong := default kDefaultEnablePong (last (omap pong_setting setters)) in
  (count is_insert (events (trace r)) = 1 ∧
   omap pong_call (events (trace r)) = [pong] ∧
   pongEnabled (webSocket (final r)) = pong)
  ∨
  (count is_insert (events (trace r)) = 0 ∧
   omap pong_call (events (trace r)) = [] ∧
   pongEnabled (webSocket (final r)) = pongEnabled (env_new_WebSocket env)).
Proof.
  intros constructed server r pong.
  assert (_enablePong server = pong) as Hp.
  { subst server constructed pong. simpl.
    by destruct (call_setters_members
                   (WebSocketServer_new port host backlog maxConnections
                      handshakeTimeoutSecs addressFamily) setters) as (_ & _ & _ & -> & _). }
  clearbody server pong. clear constructed. subst r. on_path env server socket id ci.
  destruct p as [|e| |d s]; [by right ..|]. left.
  destruct Htakes as [Hd Hs]. split_and!; [| | by rewrite <- Hp].
  all: destruct s as [e|st|st dl e|st dl]; cbn [served] in Hs;
    [| | destruct Hs as (_ & _ & Hdl & _) ..].
  all: subst pong; enrolled_cases server d; observe Hdl; reflexivity.
Qed.

(** ** [handleConnection] *)

(** X3: a session is configured before it is enrolled.  Whenever the
    handler inserts its session into the client set, it has called
    [disableAutomaticReconnection()] and one of [enablePong()] and
    [disablePong()] on it before, once each, and at the moment of the
    insert the session has a per-message handler registered; a session
    that was enrolled is left with automatic reconnection disabled. *)
Theorem session_is_configured_before_it_is_enrolled env server socket id ci :
  let r := connection env server socket id ci in
  precedes (λ e, is_disableAutomaticReconnection e = true) (λ e, is_insert e = true)
           (events (trace r)) ∧
  precedes (λ e, is_pong e = true) (λ e, is_insert e = true) (events (trace r)) ∧
  Forall (λ o, is_insert (event o) = true → is_Some (snap_callback (seen o))) (trace r) ∧
  count is_disableAutomaticReconnection (events (trace r)) = count is_insert (events (trace r)) ∧
  count is_pong (events (trace r)) = count is_insert (events (trace r)) ∧
  (count is_insert (events (trace r)) = 1 →
   automaticReconnection (webSocket (final r)) = false).
Proof.
  intros r. subst r.
  pose proof (connection_discipline env server socket id ci) as Hdisc.
  on_path env server socket id ci.
  split_and!; [apply guarded_precedes | apply guarded_precedes | | | |].
  3:{ eapply Forall_impl; [exact Hdisc |]. by intros o [_ H]. }
  all: destruct p as [|e| |d s]; [by (simpl; auto) ..|].
  all: destruct Htakes as [_ Hs].
  all: destruct s as [e|st|st dl e|st dl]; cbn [served] in Hs;
         [| | destruct Hs as (_ & _ & Hdl & _) ..].
  all: enrolled_cases server d; observe Hdl; first [reflexivity | done].
Qed.

(** X4: the handler holds [_clientsMutex] only around its accesses to
    the client set.  At every event of a connection the mutex is held
    exactly when the event is the insert, the erase, the log line of a
    failed erase or the release that ends the scope; so the application's
    hooks, the handshake and the message loop run with the mutex
    released, and the mutex is never taken while it is held.  Every lock
    is released, also when the handler ends with an exception, and there
    is one lock per insert and per erase. *)
Theorem mutex_is_held_only_around_the_client_set env server socket id ci :
  let r := connection env server socket id ci in
  Forall (λ o, snap_clientsMutex (seen o) = holds_mutex (event o)) (trace r) ∧
  Forall (λ o, is_hook (event o) || is_session_io (event o) || is_lock (event o) = true →
               snap_clientsMutex (seen o) = false) (trace r) ∧
  clientsMutex (final r) = false ∧
  count is_lock (events (trace r)) = count is_unlock (events (trace r)) ∧
  count is_lock (events (trace r)) =
    count is_insert (events (trace r)) + count is_erase (events (trace r)).
Proof.
  intros r. subst r.
  pose proof (connection_discipline env server socket id ci) as Hd.
  split_and!.
  - eapply Forall_impl; [exact Hd |]. by intros o [H _].
  - eapply Forall_impl; [exact Hd |]. intros o [H _] Hk. rewrite H.
    by destruct (event o).
  - on_path env server socket id ci. reflexivity.
  - on_path env server socket id ci.
    destruct p as [|e| |d s]; [reflexivity ..|]. destruct Htakes as [_ Hs].
    destruct s as [e|st|st dl e|st dl]; cbn [served] in Hs;
      [| | destruct Hs as (_ & _ & Hdl & _) ..];
      enrolled_cases server d; observe Hdl; reflexivity.
  - on_path env server socket id ci.
    destruct p as [|e| |d s]; [reflexivity ..|]. destruct Htakes as [_ Hs].
    destruct s as [e|st|st dl e|st dl]; cbn [served] in Hs;
      [| | destruct Hs as (_ & _ & Hdl & _) ..];
      enrolled_cases server d; observe Hdl; reflexivity.
Qed.

(** X5: the handler works on the session it allocated.  Its first call
    names the thread ["WebSocketServer::"] followed by the connection
    id, its second allocates the session; it allocates one session, and
    every later call that concerns a session concerns that one. *)
Theorem handler_works_on_the_session_it_allocated env server socket id ci :
  let r := connection env server socket id ci in
  events (trace r) !! 0 = Some (EvSetThreadName ("WebSocketServer::" +:+ id)) ∧
  events (trace r) !! 1 = Some (EvMakeShared (env_make_shared env)) ∧
  count is_makeShared (events (trace r)) = 1 ∧
  Forall (λ ws, ws = env_make_shared env) (omap session_of (events (trace r))).
Proof.
  intros r. subst r. on_path env server socket id ci.
  destruct p as [|e| |d s];
    [by (split_and!; [reflexivity .. |]; simpl; repeat constructor) ..|].
  destruct Htakes as [_ Hs]. split_and!.
  all: destruct s as [e|st|st dl e|st dl]; cbn [served] in Hs;
    [| | destruct Hs as (_ & _ & Hdl & _) ..].
  all: enrolled_cases server d; observe Hdl; try reflexivity.
  all: repeat first [apply Forall_nil_2 | apply Forall_cons_2; [reflexivity |]
                    | apply Forall_app_2; [by eapply sessions_of_deliveries |]
                    | exact (sessions_of_deliveries _ _ _ _ _ Hdl) ].
Qed.

(** X6: the [ConnectionInfo] is handed over or destroyed, once.  When an
    [OnConnection] hook is set, the handler moves the [ConnectionInfo]
    into the one call of the hook and destroys nothing; when none is set,
    the handler calls no such hook and destroys the [ConnectionInfo]
    itself, once, as its very last action.  This holds however the handler
    ends, and the handler's pointer is null afterwards. *)
Theorem connectionInfo_is_handed_over_or_destroyed_once env server socket id ci :
  let r := connection env server socket id ci in
  count is_onConnection (events (trace r)) =
    (if _onConnectionCallback server is Some _ then 1 else 0) ∧
  omap destroyed (events (trace r)) =
    (if _onConnectionCallback server is Some _ then [] else [ci]) ∧
  after is_destroy (events (trace r)) = [] ∧
  connectionInfo (final r) = None.
Proof.
  intros r. subst r. on_path env server socket id ci.
  destruct p as [|e| |d s].
  - destruct Htakes as [-> _]. done.
  - destruct Htakes as (cb & -> & _). done.
  - destruct Htakes as (cb & -> & _). done.
  - destruct Htakes as [Hd Hs].
    destruct d as [g|]; simpl in Hd;
      [destruct Hd as (cb & Hcb & _); rewrite Hcb | destruct Hd as [Hoc _]; rewrite Hoc].
    all: destruct s as [e|st|st dl e|st dl]; cbn [served] in Hs;
      [| | destruct Hs as (_ & _ & Hdl & _) ..].
    all: unfold_path; destruct (_enablePong server); erase_cases; observe Hdl.
    all: rewrite ?(count_app_callbacks _ _ _ _ _ _ (λ _ _, eq_refl) Hdl).
    all: rewrite ?(after_only_deliveries _ _ _ _ _ _ Hdl) by (by intros []); done.
Qed.

(** X7: [run()] is entered exactly after a successful handshake.  The
    handler calls [connectToSocket] once for each session it enrolled;
    it calls [run()] as many times as a handshake returned success,
    which is at most once, and not before that handshake has returned. *)
Theorem run_is_entered_exactly_after_a_successful_handshake env server socket id ci :
  let r := connection env server socket id ci in
  count is_connectToSocket (events (trace r)) = count is_insert (events (trace r)) ∧
  count is_run (events (trace r)) = count is_handshake_success (events (trace r)) ∧
  (count is_run (events (trace r)) ≤ 1)%nat ∧
  precedes (λ e, is_handshake_success e = true) (λ e, is_run e = true) (events (trace r)).
Proof.
  intros r. subst r. on_path env server socket id ci.
  split_and!; [| | | apply guarded_precedes].
  all: destruct p as [|e| |d s]; [by (simpl; auto) ..|].
  all: destruct Htakes as [_ Hs].
  all: destruct s as [e|st|st dl e|st dl]; cbn [served] in Hs;
    [| destruct Hs as [_ Hst] | destruct Hs as (_ & Hst & Hdl & _) ..].
  all: enrolled_cases server d; observe Hdl; rewrite ?Hst; first [reflexivity | lia | done].
Qed.

(** X8: when nothing is logged.  The handler writes nothing to the error
    log exactly when it ends with an exception (which it does not log),
    or when the session was enrolled, its handshake did not fail and the
    erase removed one entry. *)
Theorem nothing_is_logged_for_a_clean_session env server socket id ci :
  let r := connection env server socket id ci in
  logged (events (trace r)) = [] ↔
  (∃ e, completion r = Thrown e) ∨
  (count is_insert (events (trace r)) = 1 ∧
   Forall (λ status, success status = true) (omap handshake_status (events (trace r))) ∧
   Forall (λ removed, removed = 1) (omap erased (events (trace r)))).
Proof.
  intros r. subst r. on_path env server socket id ci.
  destruct p as [|e| |d s].
  - simpl. split; [discriminate | intros [[e He] | [Hins _]]; discriminate].
  - simpl. split; [eauto | reflexivity].
  - simpl. split; [discriminate | intros [[e He] | [Hins _]]; discriminate].
  - destruct Htakes as [_ Hs].
    destruct s as [e|st|st dl e|st dl]; cbn [served] in Hs;
      [| destruct Hs as [_ Hst] | destruct Hs as (_ & Hst & Hdl & _) ..].
    all: enrolled_cases server d; unfold handshake_error; observe Hdl.
    all: split;
      [ intros Hlog; try discriminate Hlog;
        first [ left; eexists; reflexivity
              | right; split_and!; [reflexivity | by repeat constructor ..] ] |].
    all: intros [[e' He'] | (_ & Hok1 & Hok2)]; try discriminate He'; try reflexivity.
    all: try (apply Forall_cons_1 in Hok1 as [Hok1 _]; congruence).
    all: try (apply Forall_cons_1 in Hok2 as [Hok2 _]; discriminate Hok2).
Qed.

(** X9: an exception leaves the session enrolled.  When the handler ends
    with an exception after it has inserted its session (the exception
    then comes from [connectToSocket] or from [run()]), it has neither
    erased the session nor cleared its per-message handler: the handler
    is still registered when the handler function is left, on the
    [OnClientMessage] path it is the server's closure while the
    [ConnectionInfo] the closure refers to has been destroyed, and the
    session is still in the client set unless another thread removed
    it. *)
Theorem exception_leaves_the_session_enrolled env server socket id ci e :
  let r := connection env server socket id ci in
  let h := env_make_shared env in
  completion r = Thrown e →
  count is_insert (events (trace r)) = 1 →
  count is_erase (events (trace r)) = 0 ∧
  count is_clear (events (trace r)) = 0 ∧
  is_Some (onMessageCallback (webSocket (final r))) ∧
  (_onConnectionCallback server = None →
   onMessageCallback (webSocket (final r)) = Some (client_message_lambda id) ∧
   omap destroyed (events (trace r)) = [ci]) ∧
  ((∀ ev live, env_others env ev live = live) →
   _clients (this (final r)) = set_insert h (_clients server) ∧
   h ∈ _clients (this (final r))).
Proof.
  intros r h Hthrown Hins. subst r h. on_path env server socket id ci.
  destruct p as [|e'| |d s]; [discriminate Hins ..|]. destruct Htakes as [Hd Hs].
  destruct s as [e'|st|st dl e'|st dl]; try discriminate Hthrown;
    cbn [served] in Hs; [| destruct Hs as (_ & _ & Hdl & _)].
  all: split_and!;
    [ enrolled_cases server d; observe Hdl; reflexivity
    | enrolled_cases server d; observe Hdl; reflexivity
    | simpl; eauto
    | intros Hoc; destruct d as [g|];
      [ destruct Hd as (cb & Hcb & _); congruence
      | split; [reflexivity |];
        unfold_path; destruct (_enablePong server); erase_cases; observe Hdl; reflexivity ]
    | intros Halone; simpl; unfold clients_at_run, clients_at_handshake;
      rewrite !Halone; split; [reflexivity |];
      unfold set_insert; apply elem_of_union_l, elem_of_singleton_2; reflexivity ].
Qed.

Lemma exception_leaves_the_session_enrolled_witness :
  completion (connection env_run_throws server_onClientMessage 4 "c1" ci0)
    = Thrown (app_exception "reset") ∧
  count is_insert
    (events (trace (connection env_run_throws server_onClientMessage 4 "c1" ci0))) = 1 ∧
  count is_erase
    (events (trace (connection env_run_throws server_onClientMessage 4 "c1" ci0))) = 0 ∧
  7 ∈ _clients (this (final (connection env_run_throws server_onClientMessage 4 "c1" ci0))).
Proof.
  split; [reflexivity |]. split; [reflexivity |].
  destruct (exception_leaves_the_session_enrolled
              env_run_throws server_onClientMessage 4 "c1" ci0 (app_exception "reset")
              eq_refl eq_refl) as (Herase & _ & _ & _ & Hin).
  split; [exact Herase |]. apply Hin. reflexivity.
Defined.

(** ** [handleConnection], [getConnectedClientsCount] and [getClients] *)

(** X10: a connection that returns leaves the client set as it found it.
    When [handleConnection] returns, the session it allocated was not in
    the set before and no other thread touched the set meanwhile, the set
    is what it was before the connection: [getConnectedClientsCount()]
    called next answers the size it had, and [getClients()] the set it
    was. *)
Theorem returning_connection_restores_the_client_set env server socket id ci :
  let r := connection env server socket id ci in
  completion r = Normal () →
  env_make_shared env ∉ _clients server →
  (∀ ev live, env_others env ev live = live) →
  _clients (this (final r)) = _clients server ∧
  completion ((handleConnection env socket;; getConnectedClientsCount)
                (entry env server id ci)) = Normal (size (_clients server)) ∧
  completion ((handleConnection env socket;; getClients) (entry env server id ci))
    = Normal (_clients server).
Proof.
  intros r Hnormal Hfresh Halone. subst r.
  assert (_clients (this (final (connection env server socket id ci))) = _clients server)
    as Hset.
  { on_path env server socket id ci.
    destruct p as [|e| |d s]; [reflexivity ..|].
    destruct s as [e|st|st dl e|st dl]; try discriminate Hnormal.
    all: simpl; unfold clients_at_run, clients_at_handshake; rewrite !Halone.
    all: by apply set_erase_insert. }
  split; [exact Hset |].
  unfold bind. fold (connection env server socket id ci).
  unfold completion, final in Hnormal, Hset.
  destruct (connection env server socket id ci) as [c [m t]].
  cbn [fst snd] in Hnormal, Hset. subst c.
  rewrite getConnectedClientsCount_run, getClients_run. cbn [fst]. by rewrite Hset.
Qed.

Lemma returning_connection_restores_the_client_set_witness :
  completion (connection env_happy server_three 4 "c4" ci0) = Normal () ∧
  completion ((handleConnection env_happy 4;; getConnectedClientsCount)
                (entry env_happy server_three "c4" ci0)) = Normal 3.
Proof.
  split; [reflexivity |].
  assert (env_make_shared env_happy ∉ _clients server_three) as Hfresh.
  { vm_compute. intros Hin. discriminate Hin. }
  destruct (returning_connection_restores_the_client_set
              env_happy server_three 4 "c4" ci0 eq_refl Hfresh (λ _ _, eq_refl))
    as (_ & Hcount & _).
  rewrite Hcount. reflexivity.
Defined.

(** ** [stop], [getConnectedClientsCount] and the destructor *)

(** X11: [stop()] closes each counted session once, when the set is
    left alone in between.  A caller asks [getConnectedClientsCount()]
    and then calls [stop()]; between the unlock of the first (line 172)
    and the lock inside [getClients()] (line 164) the mutex is free and
    the other threads run.  [stop()] makes one [close()] call on each
    session that is in the set when it takes its copy, and none on any
    other; when no other thread changed the set in between, that is one
    call on each session that was counted, and as many calls as the count
    that was answered. *)
Theorem stop_closes_each_counted_session_once env m :
  let r := (n <- getConnectedClientsCount;
            yield env EvStopAcceptingConnections;;
            stop env;;
            ret n) (m, []) in
  let counted := _clients (this m) in
  let copied := env_others env EvStopAcceptingConnections counted in
  completion r = Normal (size counted) ∧
  count is_close (events (trace r)) = size copied ∧
  (∀ ws, count (closes ws) (events (trace r)) = if decide (ws ∈ copied) then 1 else 0) ∧
  (copied = counted →
   count is_close (events (trace r)) = size counted ∧
   ∀ ws, count (closes ws) (events (trace r)) = if decide (ws ∈ counted) then 1 else 0).
Proof.
  intros r counted copied.
  remember ((n <- getConnectedClientsCount;
             yield env EvStopAcceptingConnections;;
             stop env;;
             ret n) (m, [])) as r0 eqn:Er.
  subst r. unfold bind in Er. rewrite getConnectedClientsCount_run in Er.
  unfold yield, modify in Er. cbn [fst snd] in Er.
  match type of Er with
  | context [stop env (?m1, ?t1)] =>
      destruct (stop_run env m1 t1) as (dt & E & Hev); rewrite E in Er; clear E
  end.
  subst r0. unfold completion, trace, ret. cbn [fst snd].
  match goal with
  | |- context [reverse ?l] =>
      assert (count is_close (events (reverse l)) = size copied ∧
              ∀ ws, count (closes ws) (events (reverse l))
                    = if decide (ws ∈ copied) then 1 else 0) as [Hn Hws]
  end.
  { rewrite reverse_app. unfold events. rewrite fmap_app. fold (events (reverse dt)).
    rewrite Hev. subst copied counted. destruct m as [[b to pong d oc om cl] ws0 cs oci mx].
    cbn [this _clients set_clientsMutex set_this set_clients].
    split; [| intros ws]; rewrite count_app, count_stop_events; simpl;
      rewrite ?count_is_close, ?length_in_order, ?count_closes_in_order; lia. }
  split; [reflexivity |]. split; [exact Hn |]. split; [exact Hws |].
  intros Hsame. rewrite <- Hsame. by split.
Qed.

Lemma stop_closes_each_counted_session_once_witness :
  count is_close
    (events (trace ((n <- getConnectedClientsCount;
                     yield env_draining EvStopAcceptingConnections;;
                     stop env_draining;;
                     ret n) (at_rest server_three)))) = 3 ∧
  completion ((n <- getConnectedClientsCount;
               yield env_leaving EvStopAcceptingConnections;;
               stop env_leaving;;
               ret n) (at_rest server_three)) = Normal 3 ∧
  count is_close
    (events (trace ((n <- getConnectedClientsCount;
                     yield env_leaving EvStopAcceptingConnections;;
                     stop env_leaving;;
                     ret n) (at_rest server_three)))) = 2.
Proof.
  destruct (stop_closes_each_counted_session_once
              env_draining (mkMem server_three fresh0 (mkConnectionState "" false) None false))
    as (_ & _ & _ & Hsame).
  destruct Hsame as [Hcount _]; [vm_compute; reflexivity |].
  destruct (stop_closes_each_counted_session_once
              env_leaving (mkMem server_three fresh0 (mkConnectionState "" false) None false))
    as (Hn & Hc & _).
  unfold at_rest.
  split; [etransitivity; [exact Hcount | vm_compute; reflexivity] |].
  split; [exact Hn |].
  etransitivity; [exact Hc | vm_compute; reflexivity].
Defined.

(** X12: [stop()] leaves the client set to the handlers.  [stop()]
    itself neither inserts into nor erases from the client set and
    clears no callback; when it returns the memory is as it found it,
    with the mutex released, but for what the other threads did to the
    client set while it ran.  So when no other thread removes a session,
    the set, and the count [getConnectedClientsCount()] answers after
    [stop()], are what they were before. *)
Theorem stop_leaves_the_client_set_to_the_handlers env m :
  let r := stop env (m, []) in
  final r =
    set_clientsMutex false
      (set_this (set_clients (clients_after_stop env (_clients (this m)))) m) ∧
  count is_insert (events (trace r)) = 0 ∧
  count is_erase (events (trace r)) = 0 ∧
  count is_clear (events (trace r)) = 0 ∧
  ((∀ ev live, env_others env ev live = live) →
   _clients (this (final r)) = _clients (this m) ∧
   completion ((stop env;; getConnectedClientsCount) (m, []))
     = Normal (size (_clients (this m)))).
Proof.
  intros r. subst r. destruct (stop_run env m []) as (dt & E & Hev).
  unfold final, trace. rewrite E. cbn [fst snd]. rewrite app_nil_r, Hev.
  split; [reflexivity |].
  split_and!; try (rewrite count_stop_events; simpl;
                   rewrite count_close_events by done; reflexivity).
  intros Halone. destruct m as [srv ws0 cs oci mx]. cbn [this _clients set_this set_clientsMutex
    set_clients]. rewrite clients_after_stop_alone by done. split; [reflexivity |].
  unfold bind. rewrite E, getConnectedClientsCount_run. cbn.
  by rewrite clients_after_stop_alone.
Qed.

(** X13: the destructor after [stop()] closes what is still registered.
    A server that is stopped and then destroyed runs the three steps of
    [stop()] twice; the second run takes its own copy of the client set
    and closes the sessions that are in the set by then.  When no handler
    has erased its session meanwhile, every session of the set is closed
    twice; when all have, the second run closes nothing. *)
Theorem destructor_after_stop_closes_what_is_still_registered env m :
  let r := (stop env;; WebSocketServer_destructor env) (m, []) in
  let c := _clients (this m) in
  completion r = Normal () ∧
  events (trace r) = stop_events c ++ stop_events (clients_after_stop env c) ∧
  ((∀ ev live, env_others env ev live = live) →
   ∀ ws, count (closes ws) (events (trace r)) = if decide (ws ∈ c) then 2 else 0) ∧
  (clients_after_stop env c = ∅ → count is_close (events (trace r)) = size c).
Proof.
  intros r c. subst c.
  remember ((stop env;; WebSocketServer_destructor env) (m, [])) as r0 eqn:Er. subst r.
  unfold bind, WebSocketServer_destructor, function_body in Er.
  destruct (stop_run env m []) as (dt1 & E1 & Hev1). rewrite E1 in Er.
  match type of Er with
  | context [stop env (?m1, ?t1)] =>
      destruct (stop_run env m1 t1) as (dt2 & E2 & Hev2); rewrite E2 in Er; clear E2
  end.
  subst r0. unfold completion, trace. cbn [fst snd].
  assert (events (reverse (dt2 ++ dt1 ++ [])) =
          stop_events (_clients (this m))
          ++ stop_events (clients_after_stop env (_clients (this m)))) as ->.
  { rewrite app_nil_r, reverse_app. unfold events. rewrite fmap_app.
    fold (events (reverse dt1)). fold (events (reverse dt2)). rewrite Hev1, Hev2.
    by destruct m as [[b to pong d oc om cl] ws0 cs oci mx]. }
  split; [reflexivity |]. split; [reflexivity |]. split.
  - intros Halone ws. rewrite clients_after_stop_alone by done.
    rewrite count_app, count_stop_events. simpl. rewrite count_closes_in_order.
    repeat case_decide; first [lia | done].
  - intros Hempty. rewrite Hempty, count_app, !count_stop_events. simpl.
    rewrite !count_is_close, !length_in_order, size_empty. lia.
Qed.

(** X14: a server that never had a connection has no client to close.
    After the constructor and any calls of the setters,
    [getConnectedClientsCount()] answers 0, [getClients()] the empty set,
    and the destructor stops accepting, takes an empty copy of the client
    set, closes no session and stops the base class. *)
Theorem unused_server_has_no_client_to_close
    port host backlog maxConnections handshakeTimeoutSecs addressFamily setters
    env ws cs oci :
  let server :=
    call_setters
      (WebSocketServer_new port host backlog maxConnections handshakeTimeoutSecs addressFamily)
      setters in
  let m := mkMem server ws cs oci false in
  completion (getConnectedClientsCount (m, [])) = Normal 0 ∧
  completion (getClients (m, [])) = Normal ∅ ∧
  events (trace (WebSocketServer_destructor env (m, []))) =
    [EvStopAcceptingConnections; EvLock; EvCopyClients ∅; EvUnlock; EvSocketServerStop] ∧
  final (WebSocketServer_destructor env (m, [])) =
    set_this (set_clients (env_others env EvSocketServerStop ∅)) m.
Proof.
  intros server m.
  assert (_clients server = ∅) as Hc.
  { subst server.
    by destruct (call_setters_members
                   (WebSocketServer_new port host backlog maxConnections
                      handshakeTimeoutSecs addressFamily) setters) as (_ & _ & -> & _). }
  clearbody server. subst m.
  rewrite getConnectedClientsCount_run, getClients_run. unfold completion. cbn [fst this].
  rewrite Hc. split; [reflexivity |]. split; [reflexivity |].
  unfold WebSocketServer_destructor, function_body.
  destruct (stop_run env (mkMem server ws cs oci false) []) as (dt & E & Hev).
  rewrite E. unfold trace, final. cbn [fst snd this]. rewrite app_nil_r, Hev. cbn [this].
  rewrite Hc. split; reflexivity.
Qed.

(** ** The members that are never read *)

Section Unread.
Variables (b : SocketServer) (deflate : bool).

Lemma unread_ret {A} (a : A) : unread b deflate (ret a).
Proof. by intros m t. Qed.

Lemma unread_throw {A} e : unread b deflate (@throw A e).
Proof. by intros m t. Qed.

Lemma unread_return {A} : unread b deflate (@return_ A).
Proof. by intros m t. Qed.

Lemma unread_undefined {A} : unread b deflate (@undefined A).
Proof. by intros m t. Qed.

Lemma unread_emit e : unread b deflate (emit e).
Proof. by intros m t. Qed.

Lemma unread_gets {A} (g : Mem → A) :
  (∀ m, g (set_this (set_base_and_deflate b deflate) m) = g m) → unread b deflate (gets g).
Proof. intros Hg m t. unfold gets. simpl. by rewrite Hg. Qed.

Lemma unread_modify (g : Mem → Mem) :
  (∀ m, g (set_this (set_base_and_deflate b deflate) m)
        = set_this (set_base_and_deflate b deflate) (g m)) →
  unread b deflate (modify g).
Proof. intros Hg m t. unfold modify. simpl. by rewrite Hg. Qed.

Lemma unread_bind {A B} (x : M A) (k : A → M B) :
  unread b deflate x → (∀ a, unread b deflate (k a)) → unread b deflate (bind x k).
Proof.
  intros Hx Hk m t. unfold bind. rewrite Hx.
  destruct (x (m, t)) as [[a| |e|] [m' t']]; simpl; [apply Hk | done ..].
Qed.

Lemma unread_finally {A} (x : M A) (c : M unit) :
  unread b deflate x → unread b deflate c → unread b deflate (finally x c).
Proof.
  intros Hx Hc m t. unfold finally. rewrite Hx.
  destruct (x (m, t)) as [[a| |e|] [m' t']]; simpl; try rewrite Hc; done.
Qed.

Lemma unread_function_body (x : M unit) :
  unread b deflate x → unread b deflate (function_body x).
Proof.
  intros Hx m t. unfold function_body. rewrite Hx.
  by destruct (x (m, t)) as [[a| |e|] [m' t']].
Qed.

Lemma unread_for_each {A} (l : list A) (body : A → M unit) :
  (∀ a, unread b deflate (body a)) → unread b deflate (for_each l body).
Proof.
  intros Hb. induction l as [|a l IH]; simpl; [apply unread_ret |].
  apply unread_bind; [apply Hb | intros _; exact IH].
Qed.

(** One step through the syntax of an embedded method. *)
Ltac unread_step :=
  first
    [ apply unread_ret | apply unread_throw | apply unread_return | apply unread_undefined
    | apply unread_emit
    | apply unread_gets; by intros [[b0 to pong d0 oc om cl] w cs oci mx]
    | apply unread_modify; by intros [[b0 to pong d0 oc om cl] w cs oci mx]
    | apply unread_bind; [| intros ?]
    | apply unread_finally
    | apply unread_function_body
    | apply unread_for_each; intros ?
    | match goal with
      | |- unread _ _ (match ?x with _ => _ end) => destruct x
      end ].

Lemma unread_handleConnection env socket : unread b deflate (handleConnection env socket).
Proof.
  unfold handleConnection, handleConnection_body, serve, lock_guard, clients_insert,
    clients_erase, destroy_connectionInfo, setTerminated, setThreadName, logError,
    make_shared_WebSocket, WebSocket_setOnMessageCallback,
    WebSocket_isOnMessageCallbackRegistered, WebSocket_disableAutomaticReconnection,
    WebSocket_enablePong, WebSocket_disablePong, WebSocket_connectToSocket, WebSocket_run,
    call_onConnectionCallback, yield.
  repeat unread_step.
  all: unfold deliver, invoke_lambda, captured_connectionState, captured_ci, captured_ws.
  all: repeat unread_step.
Qed.

Lemma unread_stop env : unread b deflate (stop env).
Proof.
  unfold stop, stopAcceptingConnections, getClients, lock_guard, WebSocket_close,
    SocketServer_stop, yield.
  repeat unread_step.
Qed.
End Unread.

(** X15: [handleConnection] and [stop] read neither the base class's
    arguments nor [_enablePerMessageDeflate].  On a server that differs
    from another in these members only, a connection ends the same way,
    makes the same calls with the same memory at each of them, and
    leaves the same session and client set; so does [stop()].  In
    particular a connection on a server after
    [disablePerMessageDeflate()] cannot be told from one before. *)
Theorem base_and_deflate_flag_are_never_read env server socket id ci b deflate m :
  let r := connection env server socket id ci in
  let r' := connection env (set_base_and_deflate b deflate server) socket id ci in
  let off := connection env (disablePerMessageDeflate server) socket id ci in
  let s := stop env (m, []) in
  let s' := stop env (set_this (set_base_and_deflate b deflate) m, []) in
  (completion r' = completion r ∧ trace r' = trace r ∧
   final r' = set_this (set_base_and_deflate b deflate) (final r)) ∧
  (completion off = completion r ∧ trace off = trace r ∧
   webSocket (final off) = webSocket (final r) ∧
   _clients (this (final off)) = _clients (this (final r))) ∧
  (completion s' = completion s ∧ trace s' = trace s ∧
   final s' = set_this (set_base_and_deflate b deflate) (final s)).
Proof.
  intros r r' off s s'.
  assert (∀ b' d', connection env (set_base_and_deflate b' d' server) socket id ci =
                   (completion r, (set_this (set_base_and_deflate b' d') (final r), r.2.2)))
    as Hr.
  { intros b' d'. subst r. unfold connection.
    exact (unread_handleConnection b' d' env socket
             (mkMem server (env_new_WebSocket env) (mkConnectionState id false) (Some ci) false)
             []). }
  assert (disablePerMessageDeflate server
          = set_base_and_deflate (base server) false server) as Hoff
    by (by destruct server).
  subst r' off s'. rewrite Hoff, !Hr, (unread_stop b deflate env m []).
  unfold completion, trace, final. cbn [fst snd].
  split_and!; reflexivity.
Qed.

(** * The scenarios of the specification, evaluated *)

(** Happy path, [OnClientMessage] form: the hook is invoked once per
    message, in order, with the same connection state, connection info
    and session. *)
Example happy_path_onClientMessage :
  events (trace (connection env_happy server_onClientMessage 4 "c1" ci0)) =
    [EvSetThreadName "WebSocketServer::c1"; EvMakeShared 7;
     EvSetOnMessageCallback 7 (Some (client_message_lambda "c1"));
     EvDisableAutomaticReconnection 7; EvEnablePong 7;
     EvLock; EvInsert 7; EvUnlock;
     EvConnectToSocket 7 4 3; EvConnectReturned 7 handshake_ok;
     EvRun 7;
     EvOnClientMessage "c1" ci0 7 "a"; EvOnClientMessage "c1" ci0 7 "b";
     EvOnClientMessage "c1" ci0 7 "c";
     EvRunReturned 7;
     EvSetOnMessageCallback 7 None; EvLock; EvErase 7 1; EvUnlock;
     EvSetTerminated "c1"; EvDestroyConnectionInfo ci0] ∧
  completion (connection env_happy server_onClientMessage 4 "c1" ci0) = Normal () ∧
  _clients (this (final (connection env_happy server_onClientMessage 4 "c1" ci0))) = ∅.
Proof. by vm_compute. Qed.

(** Happy path, [OnConnection] form. *)
Example happy_path_onConnection :
  events (trace (connection env_happy server_onConnection 4 "c1" ci0)) =
    [EvSetThreadName "WebSocketServer::c1"; EvMakeShared 7;
     EvOnConnection 7 "c1" ci0; EvIsOnMessageCallbackRegistered 7 true;
     EvDisableAutomaticReconnection 7; EvEnablePong 7;
     EvLock; EvInsert 7; EvUnlock;
     EvConnectToSocket 7 4 3; EvConnectReturned 7 handshake_ok;
     EvRun 7; EvAppCallback 7 "a"; EvAppCallback 7 "b"; EvAppCallback 7 "c";
     EvRunReturned 7;
     EvSetOnMessageCallback 7 None; EvLock; EvErase 7 1; EvUnlock;
     EvSetTerminated "c1"].
Proof. by vm_compute. Qed.

(** Missing callback. *)
Example missing_callback :
  events (trace (connection env_happy server0 4 "c1" ci0)) =
    [EvSetThreadName "WebSocketServer::c1"; EvMakeShared 7;
     EvLogError
       "WebSocketServer Application developer error: No server callback is registerered.";
     EvLogError "Missing call to setOnConnectionCallback or setOnClientMessageCallback.";
     EvSetTerminated "c1"; EvDestroyConnectionInfo ci0].
Proof. by vm_compute. Qed.

(** [OnConnection] forgets to register a message handler. *)
Example forgotten_message_handler :
  events (trace (connection env_happy server_forgets 4 "c1" ci0)) =
    [EvSetThreadName "WebSocketServer::c1"; EvMakeShared 7;
     EvOnConnection 7 "c1" ci0; EvIsOnMessageCallbackRegistered 7 false;
     EvLogError
       "WebSocketServer Application developer error: Server callback improperly registerered.";
     EvLogError "Missing call to setOnMessageCallback inside setOnConnectionCallback.";
     EvSetTerminated "c1"].
Proof. by vm_compute. Qed.

(** Handshake failure: one log line with the HTTP status and the error
    string, an insert and an erase, [setTerminated()]. *)
Example handshake_failure :
  events (trace (connection env_failed server_onClientMessage 4 "c1" ci0)) =
    [EvSetThreadName "WebSocketServer::c1"; EvMakeShared 7;
     EvSetOnMessageCallback 7 (Some (client_message_lambda "c1"));
     EvDisableAutomaticReconnection 7; EvEnablePong 7;
     EvLock; EvInsert 7; EvUnlock;
     EvConnectToSocket 7 4 3; EvConnectReturned 7 handshake_timeout;
     EvLogError ("WebSocketServer::handleConnection() HTTP status: 400 error: "
                 +:+ "Error reading HTTP request line");
     EvSetOnMessageCallback 7 None; EvLock; EvErase 7 1; EvUnlock;
     EvSetTerminated "c1"; EvDestroyConnectionInfo ci0].
Proof. by vm_compute. Qed.

(** An [OnConnection] hook that throws. *)
Example throwing_hook :
  events (trace (connection env_happy server_throws 4 "c1" ci0)) =
    [EvSetThreadName "WebSocketServer::c1"; EvMakeShared 7; EvOnConnection 7 "c1" ci0].
Proof. by vm_compute. Qed.

(** [stop()] with three live clients whose workers deregister as soon as
    their session is closed: the copy is closed to the last element,
    although the live set shrinks under the loop. *)
Example stop_under_load :
  events (trace (stop env_draining (at_rest server_three))) =
    [EvStopAcceptingConnections;
     EvLock; EvCopyClients {[1; 2; 3]}; EvUnlock;
     EvClose 1; EvClose 2; EvClose 3;
     EvSocketServerStop] ∧
  _clients (this (final (stop env_draining (at_rest server_three)))) = ∅.
Proof. by vm_compute. Qed.
